(** * LidarHD-Download: a shallow embedding of [download_LidarHD.py]

    The script matches a user region against a tile catalogue, downloads
    the tiles whose footprint intersects it, and optionally rasterises each
    downloaded point cloud by running an external engine on a generated
    pipeline description.

    The embedding follows the script function by function.  The Python
    library calls it relies on ([str.replace], [str.split], [str.join],
    [os.path.join], [list.insert], [geopandas.sjoin], [Series.unique]) are
    written out as executable functions; the collaborators the script
    cannot see into (the HTTP fetch, whether a file can be opened for
    writing, the order in which the spatial join lays out its rows, the
    engine subprocess, the name chosen for the temporary file, the JSON
    encoder) are parameters. *)

From Stdlib Require Import ZArith QArith List Ascii String DecimalString.
From Stdlib Require Import DecimalPos DecimalZ.
From stdpp Require Import base option list strings gmap fin_maps.

Local Open Scope string_scope.

(** ** Python strings *)

Module PyStr.

(** [s.startswith(p)] *)
Definition startswith (p s : string) : bool := String.prefix p s.

(** the last character of a string, if any *)
Fixpoint last_char (s : string) : option ascii :=
  match s with
  | EmptyString => None
  | String c EmptyString => Some c
  | String _ s' => last_char s'
  end.

(** [s.endswith(c)] for a one-character suffix *)
Definition endswith_char (c : ascii) (s : string) : bool :=
  match last_char s with
  | Some d => Ascii.eqb c d
  | None => false
  end.

(** [s.replace(old, new)]: every non-overlapping occurrence of [old],
    scanning from the left.  [skip] counts the characters of a matched
    occurrence that are still to be dropped.  With an empty [old] Python
    puts [new] before every character and at the end. *)
Fixpoint replace_from (old new : string) (skip : nat) (s : string) : string :=
  match s with
  | EmptyString =>
      match old with EmptyString => new | _ => EmptyString end
  | String c s' =>
      match skip with
      | S k => replace_from old new k s'
      | O =>
          if String.prefix old s then
            match old with
            | EmptyString => new ++ String c (replace_from old new 0 s')
            | String _ old' => new ++ replace_from old new (String.length old') s'
            end
          else String c (replace_from old new 0 s')
      end
  end.

Definition replace (old new s : string) : string := replace_from old new 0 s.

(** [s.split(sep)] for a one-character separator; never the empty list *)
Fixpoint split (sep : ascii) (s : string) : list string :=
  match s with
  | EmptyString => [EmptyString]
  | String c s' =>
      if Ascii.eqb c sep then EmptyString :: split sep s'
      else match split sep s' with
           | w :: ws => String c w :: ws
           | [] => [String c EmptyString]
           end
  end.

(** [l[-1]] on the result of a split *)
Definition last_item (l : list string) : string := List.last l EmptyString.

(** [sep.join(l)] *)
Definition join (sep : string) (l : list string) : string := String.concat sep l.

(** [str(n)] for an [int] *)
Definition of_int (z : Z) : string := NilZero.string_of_int (Z.to_int z).

End PyStr.

(** ** [os.path] (POSIX flavour) *)

Module os_path.

(** [os.path.join(a, b)]: an absolute [b] discards [a]; otherwise the
    two are glued with exactly one separator, none if [a] is empty or
    already ends with one. *)
Definition join (a b : string) : string :=
  if PyStr.startswith "/" b then b
  else if (String.eqb a "" || PyStr.endswith_char "/" a)%bool then a ++ b
  else a ++ "/" ++ b.

End os_path.

(** ** Exceptions, the process state and the effect monad *)

Inductive exn_class :=
| CalledProcessError   (* [subprocess]: the child exited with a non-zero status *)
| FileNotFoundError    (* [OSError] subclass: no such file, or no such executable *)
| ConnectionError      (* [requests]: the transport failed *)
| IsADirectoryError    (* [OSError] subclass: the path names a directory *)
| OtherError.          (* any other exception class *)

(** An exception value: its class and what [str(e)] prints. *)
Record exn := Exn { exn_cls : exn_class; exn_str : string }.

Definition is_CalledProcessError (e : exn) : bool :=
  match exn_cls e with CalledProcessError => true | _ => false end.

(** What the script can observe and change: the files on disk (path to
    contents) and the lines printed on standard output, oldest first. *)
Record world := World { disk : gmap string string; stdout : list string }.

Inductive outcome (A : Type) :=
| Returns (a : A)
| Raises (e : exn).
Arguments Returns {A} a.
Arguments Raises {A} e.

(** A Python computation: it may change the world and either returns a
    value or raises.  Effects done before a raise stay done. *)
Definition py (A : Type) : Type := world -> outcome A * world.

Definition ret {A} (a : A) : py A := fun w => (Returns a, w).

Definition raise {A} (e : exn) : py A := fun w => (Raises e, w).

Definition bind {A B} (c : py A) (k : A -> py B) : py B :=
  fun w =>
    match c w with
    | (Returns a, w') => k a w'
    | (Raises e, w') => (Raises e, w')
    end.

Notation "'let*' x ':=' c 'in' k" := (bind c (fun x => k))
  (at level 10, x pattern, c at level 100, k at level 200).
Notation "c ';;' k" := (bind c (fun _ => k))
  (at level 100, k at level 200, right associativity).

(** [if cond: body] with no [else] *)
Definition when (cond : bool) (body : py unit) : py unit :=
  if cond then body else ret tt.

(** [try: body / except <matching>: handler / finally: final].  [handler e]
    is [None] when no [except] clause matches [e].  [final] runs on every
    path; an exception it raises replaces whatever was pending. *)
Definition try_except_finally {A} (body : py A) (handler : exn -> option (py A))
    (final : py unit) : py A :=
  fun w =>
    let '(r1, w1) := body w in
    let '(r2, w2) :=
      match r1 with
      | Returns a => (Returns a, w1)
      | Raises e =>
          match handler e with
          | Some h => h w1
          | None => (Raises e, w1)
          end
      end in
    match final w2 with
    | (Returns _, w3) => (r2, w3)
    | (Raises e', w3) => (Raises e', w3)
    end.

(** [print(s)] *)
Definition print (s : string) : py unit :=
  fun w => (Returns tt, World (disk w) (stdout w ++ [s])).

(** [with open(path, 'wb') as f: f.write(data)].  Whether [path] can be
    opened for writing is for the file system to say: [open_error path d]
    is the exception [open] raises for [path] on the disk [d], if any (the
    path names a directory, its directory is missing, permission is
    denied, ...).  If [open] raises, nothing is written; otherwise the
    file is created or truncated and holds [data] afterwards. *)
Definition write_file (open_error : string -> gmap string string -> option exn)
    (path data : string) : py unit :=
  fun w =>
    match open_error path (disk w) with
    | Some e => (Raises e, w)
    | None => (Returns tt, World (<[path := data]> (disk w)) (stdout w))
    end.

(** [os.remove(path)] *)
Definition os_remove (path : string) : py unit :=
  fun w =>
    match disk w !! path with
    | Some _ => (Returns tt, World (delete path (disk w)) (stdout w))
    | None =>
        (Raises (Exn FileNotFoundError
                   ("[Errno 2] No such file or directory: '" ++ path ++ "'")), w)
    end.

(** [for x in xs: body(x)] *)
Fixpoint for_each {A} (xs : list A) (body : A -> py unit) : py unit :=
  match xs with
  | [] => ret tt
  | x :: rest => body x ;; for_each rest body
  end.

(** [l.insert(i, x)] for a non-negative index: past the end it appends. *)
Definition list_insert_at {A} (i : nat) (x : A) (l : list A) : list A :=
  take i l ++ x :: drop i l.

(** A stable sort by a key: the elements in increasing order of [key],
    elements of equal key in their original order. *)
Fixpoint insert_by {A} (key : A -> nat) (x : A) (l : list A) : list A :=
  match l with
  | [] => [x]
  | y :: rest =>
      if (key x <=? key y)%nat then x :: y :: rest
      else y :: insert_by key x rest
  end.

Definition sort_by {A} (key : A -> nat) (l : list A) : list A :=
  foldr (insert_by key) [] l.

(** ** The tile catalogue and the matcher (lines 33-36) *)

Section Matcher.

(** Footprints and the [intersects] predicate belong to the geometry
    library; the script only asks whether two of them intersect. *)
Variable geometry : Type.
Variable intersects : geometry -> geometry -> bool.

(** A row of the catalogue: the tile footprint and its download URL. *)
Record TileRecord := Tile { tile_geometry : geometry; url_telech : string }.

(** The order in which the join lays out its rows comes from the
    spatial index of the library, not from the script: [join_rank left
    right] ranks the joined rows of the two frames, and the rows come in
    increasing rank. *)
Variable join_rank :
  list geometry -> list TileRecord -> geometry * TileRecord -> nat.

(** The intersecting pairs of two frames. *)
Definition intersecting_pairs (left : list geometry) (right : list TileRecord)
    : list (geometry * TileRecord) :=
  flat_map (fun g =>
              map (fun t => (g, t))
                  (filter (fun t => intersects g (tile_geometry t) = true) right))
           left.

(** [gpd.sjoin(left, right, how="inner", op='intersects')]: one joined
    row per intersecting pair, nothing for a left row with no match, in
    the order of the library. *)
Definition sjoin (left : list geometry) (right : list TileRecord)
    : list (geometry * TileRecord) :=
  sort_by (join_rank left right) (intersecting_pairs left right).

(** [Series.unique()]: the values in order of first appearance, each
    once; [seen] is the table of values already emitted. *)
Fixpoint unique_from (seen : gset string) (l : list string) : list string :=
  match l with
  | [] => []
  | x :: rest =>
      if decide (x ∈ seen) then unique_from seen rest
      else x :: unique_from ({[x]} ∪ seen) rest
  end.

Definition unique (l : list string) : list string := unique_from ∅ l.

(** [urls = gpd.sjoin(user_shp, mosaics, ...)['url_telech'].unique()] *)
Definition matched_urls (user_shp : list geometry) (mosaics : list TileRecord)
    : list string :=
  unique (map (fun row => url_telech (snd row)) (sjoin user_shp mosaics)).

End Matcher.

Arguments Tile {geometry} _ _.
Arguments tile_geometry {geometry} _.
Arguments url_telech {geometry} _.
Arguments intersecting_pairs {geometry} _ _ _.
Arguments sjoin {geometry} _ _ _ _.
Arguments matched_urls {geometry} _ _ _ _.

(** ** The downloader (lines 38-55) *)

(** What [requests.get] hands back when it returns. *)
Record response := Response { status_code : Z; content : string }.

Section Downloader.

(** The network: for each URL, [requests.get] either returns a response
    or raises. *)
Variable requests_get : string -> outcome response.

(** The file system: the exception, if any, that opening a path for
    writing raises. *)
Variable open_error : string -> gmap string string -> option exn.

Definition get (url : string) : py response :=
  fun w => (requests_get url, w).

(** [url.split('/')[-1]] *)
Definition url_filename (url : string) : string :=
  PyStr.last_item (PyStr.split "/" url).

(** One turn of the loop of lines 40-53; [output_files] is the list the
    loop appends to.  ([tqdm] only wraps the iteration in a progress bar.) *)
Definition download_step (verbose : Z) (output_path : string)
    (output_files : list string) (url : string) : py (list string) :=
  let* response := get url in
  when (verbose =? 1)%Z (print ("[INFO] Downloading file from: " ++ url)) ;;
  if (status_code response =? 200)%Z then
    let filename := url_filename url in
    write_file open_error (os_path.join output_path filename) (content response) ;;
    when (verbose =? 1)%Z (print ("[INFO] Download done for file: " ++ filename)) ;;
    ret (output_files ++ [filename])%list
  else
    when (verbose =? 1)%Z (print ("[INFO] Download failed for file: " ++ url)) ;;
    ret output_files.

Fixpoint download_loop (verbose : Z) (output_path : string)
    (output_files : list string) (urls : list string) : py (list string) :=
  match urls with
  | [] => ret output_files
  | url :: rest =>
      let* output_files' := download_step verbose output_path output_files url in
      download_loop verbose output_path output_files' rest
  end.

(** Lines 38-55: the loop over the URLs, starting from an empty list. *)
Definition download_urls (urls : list string) (verbose : Z) (output_path : string)
    : py (list string) :=
  download_loop verbose output_path [] urls.

(** [download_lidar_data(user_shp, verbose, output_path)]; [mosaics] is
    the catalogue the function reads from its fixed path. *)
Definition download_lidar_data {geometry} (intersects : geometry -> geometry -> bool)
    (join_rank : list geometry -> list (TileRecord geometry)
                 -> geometry * TileRecord geometry -> nat)
    (mosaics : list (TileRecord geometry)) (user_shp : list geometry)
    (verbose : Z) (output_path : string) : py (list string) :=
  download_urls (matched_urls intersects join_rank user_shp mosaics)
                verbose output_path.

End Downloader.

(** ** The pipeline description (lines 69-89) *)

(** An element of [args.classes] as the script can receive it: an [int]
    of the default list, or a [str] token from the command line. *)
Inductive class_code :=
| CInt (n : Z)
| CStr (s : string).

(** The [classes] argument of [point_cloud_to_tif]: "list or str". *)
Inductive classes_arg :=
| ClassesStr (s : string)
| ClassesList (l : list class_code).

(** [f"{c}"] *)
Definition format_code (c : class_code) : string :=
  match c with
  | CInt n => PyStr.of_int n
  | CStr s => s
  end.

(** [classes != 'ALL']: a list is never equal to a string. *)
Definition ne_ALL (classes : classes_arg) : bool :=
  match classes with
  | ClassesStr s => negb (String.eqb s "ALL")
  | ClassesList _ => true
  end.

(** [for c in classes]: the elements of a list, the characters of a string *)
Definition iter_classes (classes : classes_arg) : list class_code :=
  match classes with
  | ClassesStr s => map (fun ch => CStr (String ch EmptyString)) (list_ascii_of_string s)
  | ClassesList l => l
  end.

Section Pipeline.

(** The resolution is a Python [float]; the script only passes it on. *)
Variable float : Type.

(** A value inside a stage dictionary. *)
Inductive stage_value :=
| VStr (s : string)
| VInt (n : Z)
| VFloat (x : float).

(** An element of the pipeline list: the bare input path, or a
    dictionary (keys in insertion order). *)
Inductive stage :=
| Input (path : string)
| Stage (fields : list (string * stage_value)).

(** The ["filename"] entry of the writer stage (line 73). *)
Definition writer_filename (input_las output_directory : string) : string :=
  os_path.join output_directory (PyStr.replace ".copc.laz" ".tif" input_las).

Definition writer_stage (input_las output_directory : string) (resolution : float)
    : stage :=
  Stage [ ("type", VStr "writers.gdal");
          ("filename", VStr (writer_filename input_las output_directory));
          ("gdaldriver", VStr "GTiff");
          ("output_type", VStr "idw");
          ("resolution", VFloat resolution);
          ("data_type", VStr "float32");
          ("nodata", VInt (-9999)) ].

(** Line 83 *)
Definition filter_expression (classes : classes_arg) : string :=
  PyStr.join " || "
    (map (fun c => "Classification == " ++ format_code c) (iter_classes classes)).

Definition filter_stage (classes : classes_arg) : stage :=
  Stage [ ("type", VStr "filters.expression");
          ("expression", VStr (filter_expression classes)) ].

(** Lines 69-87: the value of [pipeline] when line 89 is reached. *)
Definition build_pipeline (input_las output_directory : string)
    (classes : classes_arg) (resolution : float) : list stage :=
  let pipeline := [ Input input_las;
                    writer_stage input_las output_directory resolution ] in
  if ne_ALL classes then list_insert_at 1 (filter_stage classes) pipeline
  else pipeline.

(** [{"pipeline": pipeline}] *)
Record pipeline_config := Config { pipeline : list stage }.

(** Whether a pipeline element is a dictionary whose ["type"] is [ty]. *)
Definition has_type (ty : string) (s : stage) : bool :=
  match s with
  | Input _ => false
  | Stage fields =>
      match List.find (fun kv => String.eqb (fst kv) "type") fields with
      | Some (_, VStr t) => String.eqb t ty
      | _ => false
      end
  end.

(** ** The executor (lines 91-102) *)

(** The JSON encoder, the name [tempfile] picks (it may depend on what
    is on disk), and the engine: [subprocess.run(command, check=True,
    ...)] may change the disk in any way and then returns, or raises. *)
Variable json_dumps : pipeline_config -> string.
Variable mkstemp_name : gmap string string -> string.
Variable subprocess_run :
  list string -> gmap string string -> outcome unit * gmap string string.

(** Lines 91-93: the file is created, filled and kept
    ([delete=False]); its name is returned.  The temporary directory is
    taken to be writable. *)
Definition dump_to_temp_file (cfg : pipeline_config) : py string :=
  fun w =>
    let temp_file_path := mkstemp_name (disk w) in
    (Returns temp_file_path,
     World (<[temp_file_path := json_dumps cfg]> (disk w)) (stdout w)).

Definition run (command : list string) : py unit :=
  fun w =>
    let '(r, d) := subprocess_run command (disk w) in
    (r, World d (stdout w)).

(** Lines 95-102 *)
Definition execute (temp_file_path : string) : py unit :=
  let command := ["pdal"; "pipeline"; temp_file_path] in
  try_except_finally
    (run command)
    (fun e =>
       if is_CalledProcessError e
       then Some (print ("Error running PDAL pipeline: " ++ exn_str e))
       else None)
    (os_remove temp_file_path).

Definition point_cloud_to_tif (input_las output_directory : string)
    (classes : classes_arg) (resolution : float) : py unit :=
  let pipeline_config :=
    Config (build_pipeline input_las output_directory classes resolution) in
  let* temp_file_path := dump_to_temp_file pipeline_config in
  execute temp_file_path.

(** ** The orchestrator (lines 105-121) *)

Record Args := {
  input : string;
  output : string;
  verbose : Z;
  to_dtm : Z;
  classes : list class_code;
  res : float
}.

(** ['ALL' == c] *)
Definition is_ALL (c : class_code) : bool :=
  match c with
  | CStr s => String.eqb s "ALL"
  | CInt _ => false
  end.

(** Lines 114-117 *)
Definition select_classes (args_classes : list class_code) : classes_arg :=
  if existsb is_ALL args_classes then ClassesStr "ALL"
  else ClassesList args_classes.

(** Lines 119-120 *)
Definition rasterize_all (args : Args) (classes : classes_arg)
    (lidar_data : list string) : py unit :=
  for_each lidar_data (fun file =>
    point_cloud_to_tif (os_path.join (output args) file) (output args)
                       classes (res args)).

(** [main()]; [user_shp] is what [gpd.read_file(args.input)] returned
    and [mosaics] the catalogue. *)
Definition main {geometry} (intersects : geometry -> geometry -> bool)
    (join_rank : list geometry -> list (TileRecord geometry)
                 -> geometry * TileRecord geometry -> nat)
    (requests_get : string -> outcome response)
    (open_error : string -> gmap string string -> option exn)
    (mosaics : list (TileRecord geometry)) (args : Args)
    (user_shp : list geometry) : py unit :=
  print "[INFO] Downloading LidarHD data..." ;;
  let* lidar_data :=
    download_lidar_data requests_get open_error intersects join_rank
                        mosaics user_shp (verbose args) (output args) in
  print "[INFO] LidarHD data successfully downloaded." ;;
  if (to_dtm args =? 0)%Z then ret tt
  else
    rasterize_all args (select_classes (classes args)) lidar_data ;;
    print "[INFO] Lidar data successfully rasterized.".

End Pipeline.

Arguments VStr {float} _.
Arguments VInt {float} _.
Arguments VFloat {float} _.
Arguments Input {float} _.
Arguments Stage {float} _.
Arguments Config {float} _.
Arguments pipeline {float} _.
Arguments writer_stage {float} _ _ _.
Arguments filter_stage {float} _.
Arguments build_pipeline {float} _ _ _ _.
Arguments has_type {float} _ _.
Arguments dump_to_temp_file {float} _ _ _ _.
Arguments point_cloud_to_tif {float} _ _ _ _ _ _ _ _.
Arguments rasterize_all {float} _ _ _ _ _ _ _.
Arguments main {float} _ _ _ {geometry} _ _ _ _ _ _ _ _.
Arguments output {float} _.
Arguments res {float} _.
Arguments classes {float} _.
Arguments verbose {float} _.
Arguments to_dtm {float} _.

(** ** Vocabulary of the properties *)

(** A fetch that returned, as opposed to one that raised. *)
Definition responded (requests_get : string -> outcome response) (url : string) : Prop :=
  exists r, requests_get url = Returns r.

(** A fetch counts as successful when it returned with status 200, the
    test of line 44. *)
Definition succeeded (requests_get : string -> outcome response) (url : string) : bool :=
  match requests_get url with
  | Returns r => (status_code r =? 200)%Z
  | Raises _ => false
  end.

(** The body a fetch returned (empty if it raised). *)
Definition payload (requests_get : string -> outcome response) (url : string) : string :=
  match requests_get url with
  | Returns r => content r
  | Raises _ => EmptyString
  end.

(** The disk after the payload of each URL of [urls], in order, has been
    stored under its basename in [output_path]. *)
Definition store_all (requests_get : string -> outcome response) (output_path : string)
    (urls : list string) (d : gmap string string) : gmap string string :=
  foldl (fun d url =>
           <[os_path.join output_path (url_filename url) := payload requests_get url]> d)
        d urls.

(** The raster path as the specification words it: the output directory
    joined with the basename of the input, its point-cloud extension
    replaced by the raster extension. *)
Definition raster_path_spec (output_dir input_file : string) : string :=
  os_path.join output_dir (PyStr.replace ".copc.laz" ".tif" (url_filename input_file)).

(** What the downloader prints for one URL whose fetch returned. *)
Definition report_lines (requests_get : string -> outcome response) (verbose : Z)
    (url : string) : list string :=
  if (verbose =? 1)%Z then
    [ "[INFO] Downloading file from: " ++ url;
      if succeeded requests_get url
      then "[INFO] Download done for file: " ++ url_filename url
      else "[INFO] Download failed for file: " ++ url ]
  else [].

Definition download_log (requests_get : string -> outcome response) (verbose : Z)
    (urls : list string) : list string :=
  flat_map (report_lines requests_get verbose) urls.

(** [c in s] for a character [c] *)
Fixpoint has_char (c : ascii) (s : string) : bool :=
  match s with
  | EmptyString => false
  | String d s' => (Ascii.eqb d c || has_char c s')%bool
  end.

(** [old in s] for a string [old]: it occurs somewhere in [s]. *)
Fixpoint contains (old s : string) : bool :=
  (String.prefix old s
   || match s with
      | EmptyString => false
      | String _ s' => contains old s'
      end)%bool.

(** [int(s)] for a decimal literal *)
Definition parse_int (s : string) : option Z :=
  option_map Z.of_int (NilZero.int_of_string s).

(** Where the downloader stores the payload of [url] (line 46). *)
Definition destination (output_path url : string) : string :=
  os_path.join output_path (url_filename url).

(** The file of [url] can be stored: if the URL is answered with status
    200, opening its destination for writing raises nothing. *)
Definition storable (requests_get : string -> outcome response)
    (open_error : string -> gmap string string -> option exn)
    (output_path url : string) : Prop :=
  succeeded requests_get url = true ->
  forall d, open_error (destination output_path url) d = None.

(** An engine that leaves the description it was handed on disk. *)
Definition keeps_description
    (subprocess_run : list string -> gmap string string
                      -> outcome unit * gmap string string) : Prop :=
  forall temp_file_path d,
    is_Some (d !! temp_file_path) ->
    is_Some (snd (subprocess_run ["pdal"; "pipeline"; temp_file_path] d)
               !! temp_file_path).

(** An engine invocation that can fail in one way only: the child runs
    and exits with a non-zero status. *)
Definition fails_by_exit_status_only
    (subprocess_run : list string -> gmap string string
                      -> outcome unit * gmap string string) : Prop :=
  forall command d e d',
    subprocess_run command d = (Raises e, d') -> is_CalledProcessError e = true.

(** ** Concrete scenarios

    Small collaborators on which the properties are exercised. *)

Module Scenario.

(** A network where tile [a] is served, tile [b] is missing (404) and
    the host of tile [c] cannot be reached. *)
Definition url_a := "https://host/lidar/a.copc.laz".
Definition url_b := "https://host/lidar/b.copc.laz".
Definition url_c := "https://down/lidar/c.copc.laz".

Definition unreachable : exn := Exn ConnectionError "Max retries exceeded".

Definition network (url : string) : outcome response :=
  if String.eqb url url_a then Returns (Response 200 "points of a")
  else if String.eqb url url_b then Returns (Response 404 "Not Found")
  else Raises unreachable.

Definition empty_world : world := World ∅ [].

(** A file system on which a path can be opened for writing unless it is
    empty, or ends with "/" and so names a directory. *)
Definition open_error (path : string) (d : gmap string string) : option exn :=
  if String.eqb path ""
  then Some (Exn FileNotFoundError "[Errno 2] No such file or directory: ''")
  else if PyStr.endswith_char "/" path
  then Some (Exn IsADirectoryError ("[Errno 21] Is a directory: '" ++ path ++ "'"))
  else None.

(** A stand-in encoder and a fixed temporary name. *)
Definition dumps (cfg : pipeline_config Q) : string :=
  "{pipeline of " ++ PyStr.of_int (Z.of_nat (length (pipeline cfg))) ++ " stages}".

Definition temp_name (d : gmap string string) : string := "/tmp/tmpk3x9.json".

(** Three engines: one that runs, one that exits with status 1, and a
    machine where the [pdal] executable is not installed. *)
Definition pdal_ok (command : list string) (d : gmap string string)
    : outcome unit * gmap string string :=
  (Returns tt, d).

Definition exit_1 : exn :=
  Exn CalledProcessError "Command returned non-zero exit status 1.".

Definition pdal_exit_1 (command : list string) (d : gmap string string)
    : outcome unit * gmap string string :=
  (Raises exit_1, d).

Definition no_pdal : exn :=
  Exn FileNotFoundError "[Errno 2] No such file or directory: 'pdal'".

Definition pdal_missing (command : list string) (d : gmap string string)
    : outcome unit * gmap string string :=
  (Raises no_pdal, d).

Definition args : Args Q :=
  {| input := "zone.shp"; output := "out"; verbose := 1; to_dtm := 1;
     classes := [CInt 2; CInt 3; CInt 4; CInt 5]; res := (1 # 2)%Q |}.

(** Footprints as intervals of integers. *)
Definition overlap (a b : Z * Z) : bool :=
  ((fst a <=? snd b) && (fst b <=? snd a))%Z.

(** A catalogue where two rows point at tile [a], and a region that
    meets the footprints of [a] and [b] only. *)
Definition catalogue : list (TileRecord (Z * Z)) :=
  [ Tile (0, 10)%Z url_a; Tile (5, 15)%Z url_b;
    Tile (2, 8)%Z url_a; Tile (100, 110)%Z url_c ].

Definition region : list (Z * Z) := [ (3, 7)%Z ].

(** A join that lays out its rows region geometry by region geometry,
    in catalogue order, and one that puts the rows of tile [b] first. *)
Definition catalogue_order (left : list (Z * Z)) (right : list (TileRecord (Z * Z)))
    (row : (Z * Z) * TileRecord (Z * Z)) : nat := 0.

Definition b_first (left : list (Z * Z)) (right : list (TileRecord (Z * Z)))
    (row : (Z * Z) * TileRecord (Z * Z)) : nat :=
  if String.eqb (url_telech (snd row)) url_b then 0 else 1.

(** A second network: a mirror serves tile [a] under the same file name
    with other contents, and the listing of the directory itself is
    answered with status 200. *)
Definition url_a_mirror := "https://mirror/lidar/a.copc.laz".
Definition url_dir := "https://host/lidar/".

Definition mirrored_network (url : string) : outcome response :=
  if String.eqb url url_a then Returns (Response 200 "points of a")
  else if String.eqb url url_a_mirror then Returns (Response 200 "points of a, mirror")
  else if String.eqb url url_dir then Returns (Response 200 "index of lidar")
  else Raises unreachable.

End Scenario.

(** An engine that runs and deletes the description it was given. *)
Definition pdal_tidy (command : list string) (d : gmap string string)
    : outcome unit * gmap string string :=
  (Returns tt, match command with
               | [_; _; temp_file_path] => delete temp_file_path d
               | _ => d
               end).

(** The command line of the scenario without rasterization, and a region
    that also meets the footprint of tile [c]. *)
Definition args_download_only : Args Q :=
  {| input := "zone.shp"; output := "out"; verbose := 0; to_dtm := 0;
     classes := [CInt 2; CInt 3; CInt 4; CInt 5]; res := (1 # 2)%Q |}.

Definition wide_region : list (Z * Z) := [ (3, 7)%Z; (105, 106)%Z ].

(** * Properties *)

(** ** The pipeline description *)

Section PipelineFacts.

Context {float : Type}.
Implicit Types (input_las output_directory : string) (resolution : float).

Lemma build_pipeline_ALL input_las output_directory resolution :
  build_pipeline input_las output_directory (ClassesStr "ALL") resolution
  = [Input input_las; writer_stage input_las output_directory resolution].
Proof. reflexivity. Qed.

Lemma build_pipeline_list input_las output_directory l resolution :
  build_pipeline input_las output_directory (ClassesList l) resolution
  = [Input input_las; filter_stage (ClassesList l);
     writer_stage input_las output_directory resolution].
Proof. reflexivity. Qed.

Lemma select_classes_ALL (args_classes : list class_code) :
  CStr "ALL" ∈ args_classes -> select_classes args_classes = ClassesStr "ALL".
Proof.
  intros Hin. unfold select_classes.
  assert (existsb is_ALL args_classes = true) as ->; [|done].
  apply existsb_exists. exists (CStr "ALL"). split; [|done].
  by apply list_elem_of_In.
Qed.

(** C5. For the selector 2, 3 the pipeline is the input, then the filter
    with expression "Classification == 2 || Classification == 3", then
    the writer carrying the resolution it was given; this holds whether
    the codes are the integers of the default list or tokens typed on
    the command line.  For a selector of one code the expression is the
    single test "Classification == c", with no operator around it. *)
Theorem C5_build_pipeline_two_classes input_las output_directory resolution :
  let expected expression :=
    [ Input input_las;
      Stage [ ("type", VStr "filters.expression");
              ("expression", VStr expression) ];
      Stage [ ("type", VStr "writers.gdal");
              ("filename", VStr (writer_filename input_las output_directory));
              ("gdaldriver", VStr "GTiff");
              ("output_type", VStr "idw");
              ("resolution", VFloat resolution);
              ("data_type", VStr "float32");
              ("nodata", VInt (-9999)) ] ] in
  build_pipeline input_las output_directory (ClassesList [CInt 2; CInt 3]) resolution
  = expected "Classification == 2 || Classification == 3"
  /\ build_pipeline input_las output_directory
       (ClassesList [CStr "2"; CStr "3"]) resolution
     = expected "Classification == 2 || Classification == 3"
  /\ forall c,
       build_pipeline input_las output_directory (ClassesList [c]) resolution
       = expected ("Classification == " ++ format_code c).
Proof. repeat split. Qed.

(** C6. With the "ALL" sentinel the pipeline has exactly two elements,
    the input and the writer, and none of its elements is a filter
    stage. *)
Theorem C6_build_pipeline_ALL_has_no_filter input_las output_directory resolution :
  let p := build_pipeline input_las output_directory (ClassesStr "ALL") resolution in
  p = [Input input_las; writer_stage input_las output_directory resolution]
  /\ length p = 2
  /\ forallb (fun s => negb (has_type "filters.expression" s)) p = true.
Proof. repeat split. Qed.

(** C10. If the token "ALL" occurs anywhere in the classification list
    given on the command line, lines 114-117 select the sentinel, and
    the pipeline built for any file has the input and the writer only:
    no filter stage. *)
Theorem C10_ALL_detected_by_membership (args_classes : list class_code)
    input_las output_directory resolution :
  CStr "ALL" ∈ args_classes ->
  let p := build_pipeline input_las output_directory
                          (select_classes args_classes) resolution in
  select_classes args_classes = ClassesStr "ALL"
  /\ p = [Input input_las; writer_stage input_las output_directory resolution]
  /\ forallb (fun s => negb (has_type "filters.expression" s)) p = true.
Proof.
  intros Hin p. subst p. rewrite (select_classes_ALL _ Hin). repeat split.
Qed.

End PipelineFacts.

Lemma C10_witness :
  CStr "ALL" ∈ [CStr "2"; CStr "ALL"]
  /\ select_classes [CStr "2"; CStr "ALL"] = ClassesStr "ALL"
  /\ build_pipeline "out/t.copc.laz" "out" (select_classes [CStr "2"; CStr "ALL"]) 1%Z
     = [Input "out/t.copc.laz"; writer_stage "out/t.copc.laz" "out" 1%Z].
Proof.
  assert (CStr "ALL" ∈ [CStr "2"; CStr "ALL"]) as Hin
    by (apply list_elem_of_In; simpl; auto).
  split; [exact Hin|].
  pose proof (C10_ALL_detected_by_membership
                [CStr "2"; CStr "ALL"] "out/t.copc.laz" "out" 1%Z Hin) as H.
  simpl in H. destruct H as (H1 & H2 & _). split; [exact H1 | exact H2].
Defined.

(** C1. With a relative output directory the writer stage does not get
    the path the specification describes.  For the output directory
    "out" and the downloaded file "tile.copc.laz", [main] passes
    "out/tile.copc.laz" as the input, and line 73 joins the output
    directory with that whole path: the raster path is
    "out/out/tile.tif", where the specification has "out/tile.tif". *)
Theorem C1_raster_path_relative_output :
  let input_las := os_path.join "out" "tile.copc.laz" in
  input_las = "out/tile.copc.laz"
  /\ writer_filename input_las "out" = "out/out/tile.tif"
  /\ raster_path_spec "out" input_las = "out/tile.tif"
  /\ writer_filename input_las "out" <> raster_path_spec "out" input_las.
Proof. repeat split. discriminate. Qed.

Example writer_filename_absolute_output :
  writer_filename (os_path.join "/data/out" "tile.copc.laz") "/data/out"
  = "/data/out/tile.tif".
Proof. reflexivity. Qed.

(** ** The executor *)

Section ExecutorFacts.

Context {float : Type}.
Variable json_dumps : pipeline_config float -> string.
Variable mkstemp_name : gmap string string -> string.
Variable subprocess_run :
  list string -> gmap string string -> outcome unit * gmap string string.

Lemma os_remove_gone path w : disk (snd (os_remove path w)) !! path = None.
Proof.
  unfold os_remove. destruct (disk w !! path) eqn:E; simpl; [|done].
  apply lookup_delete_eq.
Qed.

Lemma os_remove_present path w :
  is_Some (disk w !! path) ->
  os_remove path w = (Returns tt, World (delete path (disk w)) (stdout w)).
Proof. intros [x Hx]. unfold os_remove. by rewrite Hx. Qed.

(** Whatever the body and the handlers do, a [finally: os.remove(path)]
    leaves no file at [path]. *)
Lemma finally_remove_gone {A} (body : py A) handler path w :
  disk (snd (try_except_finally body handler (os_remove path) w)) !! path = None.
Proof.
  unfold try_except_finally.
  destruct (body w) as [r1 w1].
  destruct (match r1 with
            | Returns a => (Returns a, w1)
            | Raises e => match handler e with
                          | Some h => h w1
                          | None => (Raises e, w1)
                          end
            end) as [r2 w2].
  pose proof (os_remove_gone path w2) as Hgone.
  destruct (os_remove path w2) as [[u|e'] w3]; exact Hgone.
Qed.

(** C4. However the engine invocation ends (it returns, it raises
    [CalledProcessError], or it raises anything else) and whatever the
    engine did to the disk, once lines 95-102 are left there is no file
    at the temporary path; the same holds for the whole of
    [point_cloud_to_tif], whose temporary path is the name picked at
    line 91. *)
Theorem C4_temp_file_removed input_las output_directory classes resolution w :
  (forall temp_file_path w1,
      disk (snd (execute subprocess_run temp_file_path w1)) !! temp_file_path = None)
  /\ disk (snd (point_cloud_to_tif json_dumps mkstemp_name subprocess_run
                  input_las output_directory classes resolution w))
     !! mkstemp_name (disk w) = None.
Proof.
  split.
  - intros p w1. apply finally_remove_gone.
  - unfold point_cloud_to_tif, bind, dump_to_temp_file.
    apply finally_remove_gone.
Qed.

End ExecutorFacts.


(** ** The downloader *)

Section DownloaderFacts.

Variable requests_get : string -> outcome response.
Variable open_error : string -> gmap string string -> option exn.
Implicit Types (verbose : Z) (output_path url : string)
               (urls output_files : list string) (w : world).

Local Ltac run_step :=
  unfold download_step, bind, get, when, print, write_file, ret; simpl.

(** A URL whose fetch returned with status 200 and whose file can be
    opened *)
Lemma download_step_succeeded verbose output_path output_files url w :
  responded requests_get url -> succeeded requests_get url = true ->
  open_error (destination output_path url) (disk w) = None ->
  download_step requests_get open_error verbose output_path output_files url w
  = (Returns (output_files ++ [url_filename url])%list,
     World (store_all requests_get output_path [url] (disk w))
           (stdout w ++ report_lines requests_get verbose url)).
Proof.
  intros [r Hr] Hok Hopen.
  unfold store_all, report_lines, succeeded, payload, destination in *.
  run_step. rewrite Hr in *. rewrite Hok.
  destruct (verbose =? 1)%Z; simpl; rewrite Hopen; simpl.
  - by rewrite <- app_assoc.
  - by rewrite app_nil_r.
Qed.

(** A URL whose fetch returned with status 200 and whose file cannot be
    opened: the first line may have been printed, nothing is written. *)
Lemma download_step_unwritable verbose output_path output_files url e w :
  responded requests_get url -> succeeded requests_get url = true ->
  open_error (destination output_path url) (disk w) = Some e ->
  download_step requests_get open_error verbose output_path output_files url w
  = (Raises e,
     World (disk w)
           (stdout w ++ if (verbose =? 1)%Z
                        then ["[INFO] Downloading file from: " ++ url]%string
                        else [])).
Proof.
  intros [r Hr] Hok Hopen. unfold succeeded, destination in *.
  run_step. rewrite Hr in *. rewrite Hok. destruct w as [d out].
  destruct (verbose =? 1)%Z; simpl in *; rewrite Hopen; [done|].
  by rewrite app_nil_r.
Qed.

(** A URL whose fetch returned with another status *)
Lemma download_step_failed verbose output_path output_files url w :
  responded requests_get url -> succeeded requests_get url = false ->
  download_step requests_get open_error verbose output_path output_files url w
  = (Returns output_files,
     World (disk w) (stdout w ++ report_lines requests_get verbose url)).
Proof.
  intros [r Hr] Hok. unfold report_lines, succeeded in *.
  run_step. rewrite Hr in *. rewrite Hok. destruct w as [d out].
  destruct (verbose =? 1)%Z; simpl.
  - by rewrite <- app_assoc.
  - by rewrite app_nil_r.
Qed.

(** A URL whose fetch raised: nothing is printed, nothing is written. *)
Lemma download_step_raised verbose output_path output_files url e w :
  requests_get url = Raises e ->
  download_step requests_get open_error verbose output_path output_files url w
  = (Raises e, w).
Proof. intros Hr. run_step. by rewrite Hr. Qed.

Lemma store_all_app output_path urls1 urls2 d :
  store_all requests_get output_path (urls1 ++ urls2) d
  = store_all requests_get output_path urls2
      (store_all requests_get output_path urls1 d).
Proof. unfold store_all. apply foldl_app. Qed.

(** The loop over URLs whose fetches all return and whose files can all
    be stored *)
Lemma download_loop_responded verbose output_path urls :
  Forall (responded requests_get) urls ->
  Forall (storable requests_get open_error output_path) urls ->
  forall output_files w,
    let ok := List.filter (succeeded requests_get) urls in
    download_loop requests_get open_error verbose output_path output_files urls w
    = (Returns (output_files ++ map url_filename ok)%list,
       World (store_all requests_get output_path ok (disk w))
             (stdout w ++ download_log requests_get verbose urls)).
Proof.
  intros Hresp. induction Hresp as [|url rest Hurl Hrest IH];
    intros Hstore output_files w; simpl.
  - unfold ret. rewrite !app_nil_r. by destruct w.
  - apply Forall_cons in Hstore as [Hstore_url Hstore_rest].
    unfold bind at 1.
    destruct (succeeded requests_get url) eqn:Hok.
    + rewrite download_step_succeeded by (try done; by apply Hstore_url).
      rewrite IH by done. simpl. by rewrite <- !app_assoc.
    + rewrite download_step_failed by done.
      rewrite IH by done. simpl. by rewrite <- !app_assoc.
Qed.

(** The loop stops at the first URL whose fetch raises. *)
Lemma download_loop_raises verbose output_path pre url post e :
  Forall (responded requests_get) pre ->
  Forall (storable requests_get open_error output_path) pre ->
  requests_get url = Raises e ->
  forall output_files w,
    download_loop requests_get open_error verbose output_path output_files
                  (pre ++ url :: post)%list w
    = (Raises e,
       snd (download_loop requests_get open_error verbose output_path
                          output_files pre w)).
Proof.
  intros Hpre Hstore Hurl. induction Hpre as [|u rest Hu Hrest IH];
    intros output_files w; simpl.
  - unfold bind at 1. by rewrite (download_step_raised _ _ _ _ e).
  - apply Forall_cons in Hstore as [Hstore_u Hstore_rest].
    unfold bind.
    destruct (succeeded requests_get u) eqn:Hok.
    + rewrite download_step_succeeded by (try done; by apply Hstore_u).
      by apply IH.
    + rewrite download_step_failed by done. by apply IH.
Qed.

(** C2 (amended). Let the fetches of the URLs in [pre] all return (with
    any status), let the files of those answered with status 200 be
    storable, and let the fetch of the next URL raise [e].  Then the URLs
    of [pre] are handled as usual, those with a status other than 200
    being skipped and reported, and the loop stops at the raising URL:
    [e] leaves the downloader, no list is returned, and the disk and the
    output are as the URLs of [pre] left them, with nothing written or
    printed for the raising URL or for any URL after it. *)
Theorem C2_transport_error_propagates verbose output_path pre url post e w :
  Forall (responded requests_get) pre ->
  Forall (storable requests_get open_error output_path) pre ->
  requests_get url = Raises e ->
  let ok := List.filter (succeeded requests_get) pre in
  let w_pre := World (store_all requests_get output_path ok (disk w))
                     (stdout w ++ download_log requests_get verbose pre) in
  download_urls requests_get open_error pre verbose output_path w
  = (Returns (map url_filename ok), w_pre)
  /\ download_urls requests_get open_error (pre ++ url :: post)%list
                   verbose output_path w
     = (Raises e, w_pre).
Proof.
  intros Hpre Hstore Hurl ok w_pre. unfold download_urls.
  rewrite (download_loop_raises _ _ _ _ _ e) by done.
  rewrite download_loop_responded by done. done.
Qed.

(** C7 (amended). When every fetch returns a response and the file of
    every URL answered with status 200 can be stored, the downloader
    returns the basenames of exactly the URLs answered with status 200,
    in the order of the URL list; the disk it leaves is the initial one
    with the payloads of those URLs stored under their basenames, so a
    URL that failed has written nothing; and if every URL was answered
    with status 200 the list has one entry per URL. *)
Theorem C7_download_returns_successes urls verbose output_path w :
  Forall (responded requests_get) urls ->
  Forall (storable requests_get open_error output_path) urls ->
  let ok := List.filter (succeeded requests_get) urls in
  let result := download_urls requests_get open_error urls verbose output_path w in
  fst result = Returns (map url_filename ok)
  /\ disk (snd result) = store_all requests_get output_path ok (disk w)
  /\ (Forall (fun url => succeeded requests_get url = true) urls ->
      fst result = Returns (map url_filename urls)
      /\ length (map url_filename urls) = length urls).
Proof.
  intros Hurls Hstore ok result. subst result. unfold download_urls.
  rewrite download_loop_responded by done. simpl.
  split; [done|]. split; [done|]. intros Hall.
  split; [|apply length_map].
  do 2 f_equal. clear Hurls Hstore ok.
  induction Hall as [|u rest Hu _ IH]; simpl; [done|].
  by rewrite Hu, IH.
Qed.

(** Runs that differ in the verbose flag only *)
Lemma download_loop_verbose_irrelevant v1 v2 output_path urls :
  forall output_files w1 w2,
    disk w1 = disk w2 ->
    let r1 := download_loop requests_get open_error v1 output_path
                            output_files urls w1 in
    let r2 := download_loop requests_get open_error v2 output_path
                            output_files urls w2 in
    fst r1 = fst r2 /\ disk (snd r1) = disk (snd r2).
Proof.
  induction urls as [|url rest IH]; intros output_files w1 w2 Hdisk; simpl.
  - done.
  - unfold bind at 1 3. unfold download_step, bind, get.
    destruct (requests_get url) as [r|e]; [|done].
    unfold when, print, write_file, ret.
    destruct (status_code r =? 200)%Z;
      destruct (v1 =? 1)%Z; destruct (v2 =? 1)%Z; simpl; rewrite ?Hdisk;
      try (destruct (open_error _ (disk w2)); [done|]);
      apply IH; simpl; by rewrite ?Hdisk.
Qed.

(** C9. Two runs of the downloader that start from the same disk and
    differ only in the verbose flag end with the same result (the same
    list, or the same exception) and the same files on disk; this holds
    for the loop over any URL list and for [download_lidar_data]. *)
Theorem C9_verbose_noninterference (v1 v2 : Z) output_path w :
  (forall urls,
      fst (download_urls requests_get open_error urls v1 output_path w)
      = fst (download_urls requests_get open_error urls v2 output_path w)
      /\ disk (snd (download_urls requests_get open_error urls v1 output_path w))
         = disk (snd (download_urls requests_get open_error urls v2 output_path w)))
  /\ (forall geometry (intersects : geometry -> geometry -> bool) join_rank
             mosaics user_shp,
         fst (download_lidar_data requests_get open_error intersects join_rank
                                  mosaics user_shp v1 output_path w)
         = fst (download_lidar_data requests_get open_error intersects join_rank
                                    mosaics user_shp v2 output_path w)
         /\ disk (snd (download_lidar_data requests_get open_error intersects
                         join_rank mosaics user_shp v1 output_path w))
            = disk (snd (download_lidar_data requests_get open_error intersects
                           join_rank mosaics user_shp v2 output_path w))).
Proof.
  split.
  - intros urls. by apply download_loop_verbose_irrelevant.
  - intros geometry intersects join_rank mosaics user_shp.
    unfold download_lidar_data.
    by apply download_loop_verbose_irrelevant.
Qed.

End DownloaderFacts.

(** In the scenario every path that does not end with "/" can be
    opened, so the files of the tiles can be stored. *)
Lemma scenario_storable network urls :
  Forall (fun url => PyStr.endswith_char "/" (destination "out" url) = false
                     /\ destination "out" url <> "") urls ->
  Forall (storable network Scenario.open_error "out") urls.
Proof.
  intros Hurls. eapply Forall_impl; [exact Hurls|].
  intros url [Hslash Hne] _ d. unfold Scenario.open_error.
  apply String.eqb_neq in Hne as ->. by rewrite Hslash.
Qed.

Lemma C2_witness :
  let pre := [Scenario.url_a; Scenario.url_b] in
  let w_pre :=
    World (<["out/a.copc.laz" := "points of a"]> ∅)
          [ "[INFO] Downloading file from: https://host/lidar/a.copc.laz";
            "[INFO] Download done for file: a.copc.laz";
            "[INFO] Downloading file from: https://host/lidar/b.copc.laz";
            "[INFO] Download failed for file: https://host/lidar/b.copc.laz" ] in
  Forall (responded Scenario.network) pre
  /\ Forall (storable Scenario.network Scenario.open_error "out") pre
  /\ Scenario.network Scenario.url_c = Raises Scenario.unreachable
  /\ download_urls Scenario.network Scenario.open_error pre 1 "out" Scenario.empty_world
     = (Returns ["a.copc.laz"], w_pre)
  /\ download_urls Scenario.network Scenario.open_error
                   (pre ++ Scenario.url_c :: [Scenario.url_a])%list
                   1 "out" Scenario.empty_world
     = (Raises Scenario.unreachable, w_pre).
Proof.
  intros pre w_pre.
  assert (Forall (responded Scenario.network) pre) as Hpre.
  { repeat constructor; eexists; reflexivity. }
  assert (Forall (storable Scenario.network Scenario.open_error "out") pre) as Hstore.
  { apply scenario_storable. repeat constructor; discriminate. }
  split; [exact Hpre|]. split; [exact Hstore|]. split; [reflexivity|].
  exact (C2_transport_error_propagates Scenario.network Scenario.open_error 1 "out"
           pre Scenario.url_c [Scenario.url_a] Scenario.unreachable
           Scenario.empty_world Hpre Hstore eq_refl).
Defined.

(** C2 (as stated) fails.  The host of tile [c] cannot be reached, so its
    fetch raises; tile [a], next in the list, would be served.  The
    downloader returns no list: the exception leaves it, and tile [a] is
    never fetched, so its file is not on disk. *)
Lemma C2_transport_error_aborts_batch :
  let urls := [Scenario.url_c; Scenario.url_a] in
  let result := download_urls Scenario.network Scenario.open_error urls 1 "out"
                              Scenario.empty_world in
  Scenario.network Scenario.url_a = Returns (Response 200 "points of a")
  /\ fst result = Raises Scenario.unreachable
  /\ (forall files, fst result <> Returns files)
  /\ disk (snd result) !! os_path.join "out" (url_filename Scenario.url_a) = None.
Proof.
  repeat split; try (vm_compute; reflexivity).
  intros files. vm_compute. discriminate.
Qed.

Lemma C7_witness :
  let urls := [Scenario.url_a; Scenario.url_b] in
  let result := download_urls Scenario.network Scenario.open_error urls 0 "out"
                              Scenario.empty_world in
  Forall (responded Scenario.network) urls
  /\ Forall (storable Scenario.network Scenario.open_error "out") urls
  /\ fst result = Returns ["a.copc.laz"]
  /\ disk (snd result) = <["out/a.copc.laz" := "points of a"]> ∅.
Proof.
  intros urls result.
  assert (Forall (responded Scenario.network) urls) as Hurls.
  { repeat constructor; eexists; reflexivity. }
  assert (Forall (storable Scenario.network Scenario.open_error "out") urls) as Hstore.
  { apply scenario_storable. repeat constructor; discriminate. }
  split; [exact Hurls|]. split; [exact Hstore|].
  destruct (C7_download_returns_successes Scenario.network Scenario.open_error urls 0
              "out" Scenario.empty_world Hurls Hstore) as (Hfst & Hdisk & _).
  split; [exact Hfst | exact Hdisk].
Defined.

(** C7 (as stated) fails.  In a list that mixes a succeeding and a
    failing fetch, tile [a] is served and the fetch of tile [c] fails by
    raising: the downloader does not return the basename of [a], it
    returns nothing, the exception leaving it.  And where a URL answered
    with status 200 ends with "/", its file name is empty, the destination
    names the output directory, and [open] raises: again no list is
    returned, although every fetch succeeded. *)
Lemma C7_failing_fetch_returns_nothing :
  let mixed := download_urls Scenario.network Scenario.open_error
                 [Scenario.url_a; Scenario.url_c] 1 "out" Scenario.empty_world in
  let all_served := download_urls Scenario.mirrored_network Scenario.open_error
                      [Scenario.url_a; Scenario.url_dir] 1 "out"
                      Scenario.empty_world in
  succeeded Scenario.network Scenario.url_a = true
  /\ succeeded Scenario.network Scenario.url_c = false
  /\ fst mixed = Raises Scenario.unreachable
  /\ fst mixed <> Returns ["a.copc.laz"]
  /\ succeeded Scenario.mirrored_network Scenario.url_a = true
  /\ succeeded Scenario.mirrored_network Scenario.url_dir = true
  /\ destination "out" Scenario.url_dir = "out/"
  /\ fst all_served
     = Raises (Exn IsADirectoryError "[Errno 21] Is a directory: 'out/'").
Proof.
  repeat split; try (vm_compute; reflexivity).
  vm_compute. discriminate.
Qed.

(** ** The matcher *)

Section MatcherFacts.

Context {geometry : Type}.
Variable intersects : geometry -> geometry -> bool.
Variable join_rank :
  list geometry -> list (TileRecord geometry) -> geometry * TileRecord geometry -> nat.
Implicit Types (seen : gset string) (l : list string)
               (R : list geometry) (C : list (TileRecord geometry)).

Lemma elem_of_insert_by {A} (key : A -> nat) (x y : A) (rows : list A) :
  y ∈ insert_by key x rows <-> y = x \/ y ∈ rows.
Proof.
  induction rows as [|z rows IH]; simpl.
  - rewrite elem_of_cons, elem_of_nil. tauto.
  - destruct (key x <=? key z)%nat.
    + by rewrite elem_of_cons.
    + rewrite !elem_of_cons, IH. tauto.
Qed.

(** Sorting moves rows, it neither adds nor drops any. *)
Lemma elem_of_sort_by {A} (key : A -> nat) (y : A) (rows : list A) :
  y ∈ sort_by key rows <-> y ∈ rows.
Proof.
  unfold sort_by. induction rows as [|x rows IH]; simpl; [done|].
  by rewrite elem_of_insert_by, IH, elem_of_cons.
Qed.

Lemma intersecting_pairs_nil_r R : intersecting_pairs intersects R [] = [].
Proof. unfold intersecting_pairs. induction R as [|g R IH]; simpl; done. Qed.

Lemma elem_of_unique_from seen l x :
  x ∈ unique_from seen l <-> x ∈ l /\ x ∉ seen.
Proof.
  revert seen. induction l as [|y rest IH]; intros seen; simpl.
  - rewrite elem_of_nil. tauto.
  - destruct (decide (y ∈ seen)) as [Hy|Hy].
    + rewrite IH, elem_of_cons. split; [tauto|].
      intros [[->|Hin] Hx]; [contradiction | tauto].
    + rewrite !elem_of_cons, IH. split.
      * intros [->|[Hin Hx]]; [tauto|]. split; [tauto|].
        intros Hs. apply Hx. apply elem_of_union. by right.
      * intros [[->|Hin] Hx]; [tauto|].
        destruct (decide (x = y)) as [->|Hne]; [tauto|].
        right. split; [done|]. rewrite elem_of_union, elem_of_singleton. tauto.
Qed.

Lemma NoDup_unique_from seen l : NoDup (unique_from seen l).
Proof.
  revert seen. induction l as [|y rest IH]; intros seen; simpl.
  - constructor.
  - destruct (decide (y ∈ seen)); [apply IH|].
    apply NoDup_cons. split; [|apply IH].
    rewrite elem_of_unique_from. intros [_ Hnew]. apply Hnew.
    apply elem_of_union. left. by apply elem_of_singleton.
Qed.

(** A list without repetitions, none of them seen before, passes
    through unchanged. *)
Lemma unique_from_NoDup seen l :
  NoDup l -> (forall x, x ∈ l -> x ∉ seen) -> unique_from seen l = l.
Proof.
  intros Hnd. revert seen.
  induction Hnd as [|y rest Hy Hrest IH]; intros seen Hseen; simpl; [done|].
  destruct (decide (y ∈ seen)) as [Hin|_].
  - exfalso. apply (Hseen y); [left | done].
  - f_equal. apply IH. intros x Hx. specialize (Hseen x).
    rewrite elem_of_cons in Hseen.
    rewrite elem_of_union, elem_of_singleton.
    intros [->|Hs]; [contradiction | apply Hseen; auto].
Qed.

Lemma elem_of_sjoin R C g t :
  (g, t) ∈ sjoin intersects join_rank R C
  <-> g ∈ R /\ t ∈ C /\ intersects g (tile_geometry t) = true.
Proof.
  unfold sjoin, intersecting_pairs.
  rewrite elem_of_sort_by, list_elem_of_In, in_flat_map. split.
  - intros (g' & Hg' & Hin). apply in_map_iff in Hin as (t' & Heq & Hin).
    inversion Heq; subst. apply list_elem_of_In, list_elem_of_filter in Hin.
    rewrite list_elem_of_In. tauto.
  - intros (Hg & Ht & Hi). exists g. split; [by apply list_elem_of_In|].
    apply in_map_iff. exists t. split; [done|].
    apply list_elem_of_In, list_elem_of_filter. done.
Qed.

(** C8. The URL list the matcher produces has no repetition, whatever
    the number of catalogue rows or region geometries that lead to the
    same URL; it holds exactly the URLs of the catalogue rows whose
    footprint intersects some geometry of the region, so it depends on
    the region and the catalogue only; deduplicating it again changes
    nothing; and it is empty when the region or the catalogue is. *)
Theorem C8_matched_urls_unique R C :
  NoDup (matched_urls intersects join_rank R C)
  /\ (forall u, u ∈ matched_urls intersects join_rank R C
            <-> exists g t, g ∈ R /\ t ∈ C
                            /\ intersects g (tile_geometry t) = true
                            /\ url_telech t = u)
  /\ unique (matched_urls intersects join_rank R C)
     = matched_urls intersects join_rank R C
  /\ matched_urls intersects join_rank [] C = []
  /\ matched_urls intersects join_rank R [] = [].
Proof.
  split; [apply NoDup_unique_from|].
  split.
  { intros u. unfold matched_urls, unique. rewrite elem_of_unique_from.
    rewrite list_elem_of_In, in_map_iff. split.
    - intros [([g t] & Hu & Hin) _]. simpl in Hu.
      apply list_elem_of_In, elem_of_sjoin in Hin. exists g, t. tauto.
    - intros (g & t & Hg & Ht & Hi & Hu). split; [|apply not_elem_of_empty].
      exists (g, t). split; [done|].
      apply list_elem_of_In, elem_of_sjoin. tauto. }
  split.
  { apply unique_from_NoDup; [apply NoDup_unique_from|].
    intros x _. apply not_elem_of_empty. }
  split; [reflexivity|].
  unfold matched_urls, sjoin. by rewrite intersecting_pairs_nil_r.
Qed.

End MatcherFacts.

(** ** An end-to-end run

    The region meets the footprints of tiles [a] and [b]; [a] is served
    and [b] answers 404.  One file is downloaded, one pipeline is run, and
    the temporary description is gone at the end. *)
Example end_to_end_one_download :
  main Scenario.dumps Scenario.temp_name Scenario.pdal_ok
       Scenario.overlap Scenario.catalogue_order Scenario.network
            Scenario.open_error Scenario.catalogue Scenario.args
       Scenario.region Scenario.empty_world
  = (Returns tt,
     World (<["out/a.copc.laz" := "points of a"]> ∅)
           [ "[INFO] Downloading LidarHD data...";
             "[INFO] Downloading file from: https://host/lidar/a.copc.laz";
             "[INFO] Download done for file: a.copc.laz";
             "[INFO] Downloading file from: https://host/lidar/b.copc.laz";
             "[INFO] Download failed for file: https://host/lidar/b.copc.laz";
             "[INFO] LidarHD data successfully downloaded.";
             "[INFO] Lidar data successfully rasterized." ]).
Proof. vm_compute. reflexivity. Qed.


(** * Further properties *)

(** ** Strings and paths *)

Section StringFacts.

Implicit Types (s a b old new : string) (c sep : ascii).

Lemma append_cons c a b : String c a ++ b = String c (a ++ b).
Proof. reflexivity. Qed.

Lemma append_nil_l s : "" ++ s = s.
Proof. reflexivity. Qed.

Lemma append_nil_r s : s ++ "" = s.
Proof. induction s as [|c s IH]; [done | by rewrite append_cons, IH]. Qed.

Lemma append_assoc a b s : (a ++ b) ++ s = a ++ (b ++ s).
Proof. induction a as [|c a IH]; [done | by rewrite !append_cons, IH]. Qed.

Lemma has_char_app c a b : has_char c (a ++ b) = (has_char c a || has_char c b)%bool.
Proof.
  induction a as [|d a IH]; [done|].
  rewrite append_cons. simpl. rewrite IH. by rewrite orb_assoc.
Qed.

Lemma split_not_nil sep s : PyStr.split sep s <> [].
Proof.
  destruct s as [|c s]; simpl; [done|].
  destruct (Ascii.eqb c sep); [done|]. by destruct (PyStr.split sep s).
Qed.

Lemma concat_cons sep_s x l :
  l <> [] -> String.concat sep_s (x :: l) = x ++ sep_s ++ String.concat sep_s l.
Proof. by destruct l. Qed.

(** A string without the separator is a single field. *)
Lemma split_no_sep sep s : has_char sep s = false -> PyStr.split sep s = [s].
Proof.
  induction s as [|c s IH]; simpl; [done|].
  intros [Hc Hs]%orb_false_elim. rewrite Hc, (IH Hs). done.
Qed.

(** Splitting at a separator splits the list of fields. *)
Lemma split_app_sep sep a b :
  PyStr.split sep (a ++ String sep b) = (PyStr.split sep a ++ PyStr.split sep b)%list.
Proof.
  induction a as [|c a IH]; [rewrite append_nil_l | rewrite append_cons]; simpl.
  - by rewrite Ascii.eqb_refl.
  - destruct (Ascii.eqb c sep); rewrite IH; [done|].
    pose proof (split_not_nil sep a) as Hne.
    by destruct (PyStr.split sep a).
Qed.

(** Every string either has no separator or splits at its last one. *)
Lemma last_sep_decomposition sep s :
  has_char sep s = false
  \/ exists a b, s = a ++ String sep b /\ has_char sep b = false.
Proof.
  induction s as [|c s IH]; simpl; [by left|].
  destruct IH as [Hs|(a & b & -> & Hb)].
  - destruct (Ascii.eqb c sep) eqn:Hc; [|by left].
    right. exists "", s. apply Ascii.eqb_eq in Hc as ->. done.
  - right. by exists (String c a), b.
Qed.

Lemma last_item_snoc (l : list string) x : PyStr.last_item (l ++ [x]) = x.
Proof. unfold PyStr.last_item. apply last_last. Qed.

Lemma url_filename_no_sep s : has_char "/" s = false -> url_filename s = s.
Proof. intros Hs. unfold url_filename. by rewrite split_no_sep. Qed.

Lemma url_filename_after_sep a b :
  has_char "/" b = false -> url_filename (a ++ String "/" b) = b.
Proof.
  intros Hb. unfold url_filename.
  rewrite split_app_sep, (split_no_sep _ b Hb). apply last_item_snoc.
Qed.

Lemma no_char_not_startswith c s :
  has_char c s = false -> PyStr.startswith (String c "") s = false.
Proof.
  destruct s as [|d s]; simpl; [done|].
  intros [Hd _]%orb_false_elim.
  destruct (ascii_dec c d) as [->|Hne]; [by rewrite Ascii.eqb_refl in Hd | done].
Qed.

Lemma prefix_cons o old c s :
  String.prefix (String o old) (String c s)
  = if ascii_dec o c then String.prefix old s else false.
Proof. reflexivity. Qed.

Lemma prefix_true old s : String.prefix old s = true -> exists b, s = old ++ b.
Proof.
  revert s. induction old as [|o old IH]; intros s.
  - intros _. by exists s.
  - destruct s as [|c s]; simpl; [done|].
    destruct (ascii_dec o c) as [->|]; [|done].
    intros [b ->]%IH. by exists b.
Qed.

Lemma prefix_app old b : String.prefix old (old ++ b) = true.
Proof.
  induction old as [|o old IH]; [by destruct b|].
  rewrite append_cons. simpl. by destruct (ascii_dec o o).
Qed.

(** Characters of a matched occurrence are dropped without a look. *)
Lemma replace_from_skip old new t rest :
  PyStr.replace_from old new (String.length t) (t ++ rest)
  = PyStr.replace_from old new 0 rest.
Proof.
  induction t as [|c t IH]; [by destruct rest|].
  rewrite append_cons. simpl. exact IH.
Qed.

(** The scan copies a stretch in which the first character of [old]
    does not appear, then replaces the occurrence that follows. *)
Lemma replace_after_stem o old' new stem rest :
  has_char o stem = false ->
  PyStr.replace (String o old') new (stem ++ String o old' ++ rest)
  = stem ++ new ++ PyStr.replace (String o old') new rest.
Proof.
  unfold PyStr.replace. induction stem as [|c stem IH]; intros Hstem.
  - rewrite !append_nil_l, append_cons.
    change (PyStr.replace_from (String o old') new 0 (String o (old' ++ rest)))
      with (if String.prefix (String o old') (String o (old' ++ rest))
            then new ++ PyStr.replace_from (String o old') new
                          (String.length old') (old' ++ rest)
            else String o (PyStr.replace_from (String o old') new 0 (old' ++ rest))).
    rewrite <- append_cons, prefix_app. by rewrite replace_from_skip.
  - simpl in Hstem. apply orb_false_elim in Hstem as [Hc Hstem].
    rewrite !append_cons. simpl.
    destruct (ascii_dec o c) as [->|_]; [by rewrite Ascii.eqb_refl in Hc|].
    f_equal. by apply IH.
Qed.

Lemma replace_stem_ext o old' new stem :
  has_char o stem = false ->
  PyStr.replace (String o old') new (stem ++ String o old') = stem ++ new.
Proof.
  intros Hstem.
  rewrite <- (append_nil_r (String o old')) at 2.
  rewrite replace_after_stem by done. by rewrite append_nil_r.
Qed.

(** Where [old] does not occur, nothing is replaced. *)
Lemma replace_absent old new s :
  contains old s = false -> PyStr.replace old new s = s.
Proof.
  unfold PyStr.replace. induction s as [|c s IH]; intros Habs.
  - by destruct old.
  - change (contains old (String c s))
      with (String.prefix old (String c s) || contains old s)%bool in Habs.
    apply orb_false_elim in Habs as [Hpre Habs].
    change (PyStr.replace_from old new 0 (String c s))
      with (if String.prefix old (String c s)
            then match old with
                 | EmptyString => new ++ String c (PyStr.replace_from old new 0 s)
                 | String _ old' =>
                     new ++ PyStr.replace_from old new (String.length old') s
                 end
            else String c (PyStr.replace_from old new 0 s)).
    rewrite Hpre. f_equal. by apply IH.
Qed.

Lemma join_relative a b :
  PyStr.startswith "/" b = false ->
  os_path.join a b
  = a ++ (if (String.eqb a "" || PyStr.endswith_char "/" a)%bool then "" else "/") ++ b.
Proof.
  intros Hb. unfold os_path.join. rewrite Hb.
  by destruct (String.eqb a "" || PyStr.endswith_char "/" a)%bool.
Qed.

Lemma join_absolute a b : PyStr.startswith "/" b = true -> os_path.join a b = b.
Proof. intros Hb. unfold os_path.join. by rewrite Hb. Qed.

Lemma startswith_app p a b :
  PyStr.startswith p a = true -> PyStr.startswith p (a ++ b) = true.
Proof.
  unfold PyStr.startswith. intros [t ->]%prefix_true.
  rewrite append_assoc. apply prefix_app.
Qed.

(** Joining the fields of a split with the separator gives the string
    back. *)
Lemma split_join_roundtrip sep s :
  PyStr.join (String sep "") (PyStr.split sep s) = s.
Proof.
  unfold PyStr.join. induction s as [|c s IH]; simpl; [done|].
  destruct (Ascii.eqb c sep) eqn:Hc.
  - apply Ascii.eqb_eq in Hc as ->.
    rewrite concat_cons by apply split_not_nil. by rewrite IH.
  - pose proof (split_not_nil sep s) as Hne.
    destruct (PyStr.split sep s) as [|w ws]; [done|].
    destruct ws as [|w' ws]; simpl in *; by rewrite <- IH.
Qed.

(** X1. The name the downloader derives from a URL never contains "/",
    and the URL is either that name alone or some text, a "/" and that
    name: it is the part after the last "/". *)
Theorem url_filename_is_last_segment url :
  has_char "/" (url_filename url) = false
  /\ (url = url_filename url
      \/ exists dir, url = dir ++ "/" ++ url_filename url).
Proof.
  destruct (last_sep_decomposition "/" url) as [Hno|(a & b & -> & Hb)].
  - rewrite (url_filename_no_sep _ Hno). split; [done | by left].
  - rewrite (url_filename_after_sep _ _ Hb). split; [done|]. right. by exists a.
Qed.

(** X2. For a name without "/", the URL made of any prefix, a "/" and
    the name has that name as its file name; a URL that ends with "/" has
    the empty file name. *)
Theorem url_filename_of_path dir name :
  has_char "/" name = false ->
  url_filename (dir ++ "/" ++ name) = name
  /\ url_filename name = name
  /\ url_filename (dir ++ "/") = "".
Proof.
  intros Hname. split; [by apply url_filename_after_sep|].
  split; [by apply url_filename_no_sep|].
  by apply (url_filename_after_sep dir "").
Qed.

Lemma url_filename_is_last_segment_aux url : has_char "/" (url_filename url) = false.
Proof.
  destruct (last_sep_decomposition "/" url) as [Hno|(a & b & -> & Hb)].
  - by rewrite (url_filename_no_sep _ Hno).
  - by rewrite (url_filename_after_sep _ _ Hb).
Qed.

(** X3. The file of a URL is always stored under the output path: the
    destination is the output path, a "/" unless the output path is empty
    or already ends with one, and the file name; the output path is never
    discarded. *)
Theorem destination_under_output_path output_path url :
  destination output_path url
  = output_path
    ++ (if (String.eqb output_path "" || PyStr.endswith_char "/" output_path)%bool
        then "" else "/")
    ++ url_filename url.
Proof.
  unfold destination. apply join_relative, no_char_not_startswith.
  apply url_filename_is_last_segment_aux.
Qed.

End StringFacts.

Lemma url_filename_of_path_witness :
  has_char "/" "a.copc.laz" = false
  /\ url_filename ("https://host/lidar" ++ "/" ++ "a.copc.laz") = "a.copc.laz"
  /\ url_filename "a.copc.laz" = "a.copc.laz"
  /\ url_filename ("https://host/lidar" ++ "/") = "".
Proof.
  split; [reflexivity|].
  exact (url_filename_of_path "https://host/lidar" "a.copc.laz" eq_refl).
Defined.

(** ** The raster path and the filter expression *)

Section WriterFacts.

Implicit Types (input_las output_directory output stem : string).

Lemma startswith_stem_ext stem ext :
  PyStr.startswith "/" stem = false ->
  PyStr.startswith "/" (stem ++ String "." ext) = false.
Proof.
  destruct stem as [|c stem]; [done|]. rewrite append_cons.
  unfold PyStr.startswith. rewrite !prefix_cons.
  destruct (ascii_dec "/" c); [|done]. by destruct stem.
Qed.

(** The path [main] hands to [point_cloud_to_tif], with the point-cloud
    extension replaced. *)
Lemma replace_joined_input output stem :
  has_char "." output = false -> has_char "." stem = false ->
  PyStr.startswith "/" stem = false ->
  PyStr.replace ".copc.laz" ".tif" (os_path.join output (stem ++ ".copc.laz"))
  = os_path.join output (stem ++ ".tif").
Proof.
  intros Hout Hstem Hrel.
  rewrite !join_relative by (by apply startswith_stem_ext).
  set (sep := if (String.eqb output "" || PyStr.endswith_char "/" output)%bool
              then "" else "/").
  assert (has_char "." (output ++ sep ++ stem) = false) as Hdot.
  { rewrite !has_char_app, Hout, Hstem. subst sep.
    by destruct (String.eqb output "" || PyStr.endswith_char "/" output)%bool. }
  replace (output ++ sep ++ stem ++ ".copc.laz")
    with ((output ++ sep ++ stem) ++ ".copc.laz") by (by rewrite !append_assoc).
  rewrite replace_stem_ext by exact Hdot.
  by rewrite !append_assoc.
Qed.

(** X4. Let the output directory and the stem of a downloaded file
    "stem.copc.laz" contain no ".".  The raster path [main] gets into the
    writer stage is the output directory joined with itself joined with
    "stem.tif"; when the output directory is absolute this is the output
    directory joined with "stem.tif". *)
Theorem writer_filename_in_main output stem :
  has_char "." output = false -> has_char "." stem = false ->
  PyStr.startswith "/" stem = false ->
  writer_filename (os_path.join output (stem ++ ".copc.laz")) output
  = os_path.join output (os_path.join output (stem ++ ".tif"))
  /\ (PyStr.startswith "/" output = true ->
      writer_filename (os_path.join output (stem ++ ".copc.laz")) output
      = os_path.join output (stem ++ ".tif")).
Proof.
  intros Hout Hstem Hrel. unfold writer_filename.
  rewrite replace_joined_input by done. split; [done|].
  intros Habs. apply join_absolute.
  rewrite join_relative by (by apply startswith_stem_ext).
  by apply startswith_app.
Qed.

(** X5. An input path in which ".copc.laz" does not occur is not renamed:
    the raster path is the output directory joined with the input path
    as it is, and for an absolute input path it is the input path itself,
    so the writer is pointed at the point-cloud file. *)
Theorem writer_filename_without_extension input_las output_directory :
  contains ".copc.laz" input_las = false ->
  writer_filename input_las output_directory
  = os_path.join output_directory input_las
  /\ (PyStr.startswith "/" input_las = true ->
      writer_filename input_las output_directory = input_las).
Proof.
  intros Habs. unfold writer_filename. rewrite replace_absent by done.
  split; [done|]. apply join_absolute.
Qed.

End WriterFacts.

Lemma writer_filename_in_main_witness :
  has_char "." "/data/out" = false /\ has_char "." "tile" = false
  /\ PyStr.startswith "/" "tile" = false
  /\ PyStr.startswith "/" "/data/out" = true
  /\ writer_filename (os_path.join "/data/out" ("tile" ++ ".copc.laz")) "/data/out"
     = os_path.join "/data/out" ("tile" ++ ".tif").
Proof.
  repeat (split; [reflexivity|]).
  exact (proj2 (writer_filename_in_main "/data/out" "tile" eq_refl eq_refl eq_refl)
               eq_refl).
Defined.

Lemma writer_filename_without_extension_witness :
  contains ".copc.laz" "/data/out/tile.laz" = false
  /\ PyStr.startswith "/" "/data/out/tile.laz" = true
  /\ writer_filename "/data/out/tile.laz" "/data/out" = "/data/out/tile.laz".
Proof.
  repeat (split; [reflexivity|]).
  exact (proj2 (writer_filename_without_extension
                  "/data/out/tile.laz" "/data/out" eq_refl) eq_refl).
Defined.

Section ExpressionFacts.

Context {float : Type}.
Implicit Types (l : list class_code) (input_las output_directory : string)
               (resolution : float).

Lemma concat_app sep_s (l1 l2 : list string) :
  l1 <> [] -> l2 <> [] ->
  String.concat sep_s (l1 ++ l2)
  = String.concat sep_s l1 ++ sep_s ++ String.concat sep_s l2.
Proof.
  intros Hl1 Hl2. induction l1 as [|x l1 IH]; [done|].
  destruct l1 as [|y l1].
  - simpl app. by rewrite concat_cons.
  - change ((x :: y :: l1) ++ l2)%list with (x :: ((y :: l1) ++ l2))%list.
    rewrite concat_cons by done. rewrite IH by done.
    rewrite (concat_cons _ x (y :: l1)) by done.
    by rewrite !append_assoc.
Qed.

Lemma existsb_is_ALL_elem l : existsb is_ALL l = true <-> CStr "ALL" ∈ l.
Proof.
  rewrite existsb_exists. split.
  - intros (c & Hin & Hc). destruct c as [n|s]; [done|].
    simpl in Hc. apply String.eqb_eq in Hc as ->. by apply list_elem_of_In.
  - intros Hin. exists (CStr "ALL"). split; [by apply list_elem_of_In | done].
Qed.

(** X6. The decimal text written into the expression for an integer
    class code parses back to that code, so different codes never give
    the same test. *)
Theorem format_code_int_roundtrip (n : Z) :
  parse_int (format_code (CInt n)) = Some n
  /\ forall m : Z, format_code (CInt m) = format_code (CInt n) -> m = n.
Proof.
  assert (forall z : Z, parse_int (PyStr.of_int z) = Some z) as Hparse.
  { intros z. unfold parse_int, PyStr.of_int.
    rewrite NilZero.isi.
    - simpl. by rewrite DecimalZ.of_to.
    - destruct z as [|p|p]; simpl; [done| |done].
      intros [= Hp]. by apply (Unsigned.to_uint_nonnil p).
    - destruct z as [|p|p]; simpl; [done|done|].
      intros [= Hp]. by apply (Unsigned.to_uint_nonnil p). }
  split; [apply Hparse|].
  intros m Heq. simpl in Heq.
  pose proof (Hparse m) as Hm. rewrite Heq, Hparse in Hm. by inversion Hm.
Qed.

(** X7. The expression for a class list cut into two non-empty parts is
    the expression of the first part, the operator " || ", and the
    expression of the second part: every code gets one test, in the order
    of the list, with the operator between tests only. *)
Theorem filter_expression_app l1 l2 :
  l1 <> [] -> l2 <> [] ->
  filter_expression (ClassesList (l1 ++ l2))
  = filter_expression (ClassesList l1) ++ " || " ++ filter_expression (ClassesList l2).
Proof.
  intros Hl1 Hl2. unfold filter_expression, PyStr.join. simpl iter_classes.
  rewrite map_app. apply concat_app; by destruct l1, l2.
Qed.

(** X8. For the class list of the command line, the pipeline [main] has
    built holds a filter stage exactly when the token "ALL" is not in the
    list; it then has three stages, the filter being over the whole list,
    and two otherwise.  An empty list has no "ALL": it gets a filter stage
    whose expression is empty. *)
Theorem filter_stage_iff_no_ALL l input_las output_directory resolution :
  let p := build_pipeline input_las output_directory (select_classes l) resolution in
  existsb (has_type "filters.expression") p = negb (existsb is_ALL l)
  /\ (CStr "ALL" ∉ l ->
      p = [ Input input_las; filter_stage (ClassesList l);
            writer_stage input_las output_directory resolution ])
  /\ (CStr "ALL" ∈ l ->
      p = [ Input input_las; writer_stage input_las output_directory resolution ])
  /\ (l = [] -> filter_expression (select_classes l) = "").
Proof.
  intros p. subst p. unfold select_classes.
  destruct (existsb is_ALL l) eqn:HALL.
  - apply existsb_is_ALL_elem in HALL. repeat split; try done.
    intros ->. by apply elem_of_nil in HALL.
  - assert (CStr "ALL" ∉ l) as Hnot.
    { intros Hin%existsb_is_ALL_elem. congruence. }
    repeat split; try done. by intros ->.
Qed.

End ExpressionFacts.

Lemma filter_expression_app_witness :
  [CInt 2] <> [] /\ [CInt 3; CStr "4"] <> []
  /\ filter_expression (ClassesList ([CInt 2] ++ [CInt 3; CStr "4"]))
     = "Classification == 2 || Classification == 3 || Classification == 4".
Proof.
  assert ([CInt 2] <> []) as H1 by discriminate.
  assert ([CInt 3; CStr "4"] <> []) as H2 by discriminate.
  split; [exact H1|]. split; [exact H2|].
  exact (filter_expression_app [CInt 2] [CInt 3; CStr "4"] H1 H2).
Defined.

(** ** More on the downloader *)

Section DownloaderMoreFacts.

Variable requests_get : string -> outcome response.
Variable open_error : string -> gmap string string -> option exn.
Implicit Types (verbose : Z) (output_path url p : string)
               (urls output_files : list string) (w : world).

(** The ways one turn of the loop can go. *)
Lemma download_step_cases verbose output_path output_files url w :
  (exists e, requests_get url = Raises e
             /\ download_step requests_get open_error verbose output_path
                              output_files url w
                = (Raises e, w))
  \/ (succeeded requests_get url = true
      /\ download_step requests_get open_error verbose output_path output_files url w
         = (Returns (output_files ++ [url_filename url])%list,
            World (<[destination output_path url := payload requests_get url]> (disk w))
                  (stdout w ++ report_lines requests_get verbose url)))
  \/ (exists e,
        download_step requests_get open_error verbose output_path output_files url w
        = (Raises e,
           World (disk w)
                 (stdout w ++ if (verbose =? 1)%Z
                              then ["[INFO] Downloading file from: " ++ url]%string
                              else [])))
  \/ (succeeded requests_get url = false
      /\ download_step requests_get open_error verbose output_path output_files url w
         = (Returns output_files,
            World (disk w) (stdout w ++ report_lines requests_get verbose url))).
Proof.
  destruct (requests_get url) as [r|e] eqn:Hget.
  - assert (responded requests_get url) as Hresp by (by exists r).
    destruct (succeeded requests_get url) eqn:Hok; right.
    + destruct (open_error (destination output_path url) (disk w)) as [e|] eqn:Hopen.
      * right; left. exists e. by apply download_step_unwritable.
      * left. split; [done|]. by rewrite download_step_succeeded.
    + right; right. split; [done|]. by rewrite download_step_failed.
  - left. exists e. split; [done|]. by apply download_step_raised.
Qed.

Lemma download_loop_frame verbose output_path urls p :
  (forall url, url ∈ urls -> succeeded requests_get url = true ->
               destination output_path url <> p) ->
  forall output_files w,
    disk (snd (download_loop requests_get open_error verbose output_path
                             output_files urls w)) !! p
    = disk w !! p.
Proof.
  induction urls as [|url rest IH]; intros Hp output_files w; [done|].
  simpl. unfold bind at 1.
  assert (forall u, u ∈ rest -> succeeded requests_get u = true ->
                    destination output_path u <> p) as Hrest.
  { intros u Hu. apply Hp. by right. }
  destruct (download_step_cases verbose output_path output_files url w)
    as [(e & _ & ->)|[(Hok & ->)|[(e & ->)|(_ & ->)]]]; [done| |done|].
  - rewrite IH by done. simpl. apply lookup_insert_ne. apply Hp; [by left | done].
  - by rewrite IH.
Qed.

Lemma download_loop_keeps verbose output_path urls p :
  forall output_files w,
    is_Some (disk w !! p) ->
    is_Some (disk (snd (download_loop requests_get open_error verbose output_path
                                      output_files urls w)) !! p).
Proof.
  induction urls as [|url rest IH]; intros output_files w Hp; [done|].
  simpl. unfold bind at 1.
  destruct (download_step_cases verbose output_path output_files url w)
    as [(e & _ & ->)|[(Hok & ->)|[(e & ->)|(_ & ->)]]]; [done| |done|].
  - apply IH. simpl. rewrite lookup_insert_is_Some'. by right.
  - by apply IH.
Qed.

Lemma download_loop_silent verbose output_path urls :
  verbose <> 1%Z ->
  forall output_files w,
    stdout (snd (download_loop requests_get open_error verbose output_path
                               output_files urls w))
    = stdout w.
Proof.
  intros Hv. assert (forall url, report_lines requests_get verbose url = []) as Hquiet.
  { intros url. unfold report_lines. by destruct (Z.eqb_spec verbose 1). }
  assert ((verbose =? 1)%Z = false) as Hoff by (by apply Z.eqb_neq).
  induction urls as [|url rest IH]; intros output_files w; [done|].
  simpl. unfold bind at 1.
  destruct (download_step_cases verbose output_path output_files url w)
    as [(e & _ & ->)|[(Hok & ->)|[(e & ->)|(_ & ->)]]]; [done| | |].
  - rewrite IH. simpl. by rewrite Hquiet, app_nil_r.
  - simpl. by rewrite Hoff, app_nil_r.
  - rewrite IH. simpl. by rewrite Hquiet, app_nil_r.
Qed.

Lemma store_all_frame output_path urls p (d : gmap string string) :
  (forall url, url ∈ urls -> destination output_path url <> p) ->
  store_all requests_get output_path urls d !! p = d !! p.
Proof.
  revert d. induction urls as [|url rest IH]; intros d Hp; [done|].
  unfold store_all in *. simpl. rewrite IH.
  - apply lookup_insert_ne. apply Hp. by left.
  - intros u Hu. apply Hp. by right.
Qed.

(** X9. The downloader changes no file other than the destinations of
    the URLs that were answered with status 200: any other path has the
    contents it had before, whether the loop runs to its end or is cut
    short by a fetch that raises. *)
Theorem download_changes_destinations_only urls verbose output_path p w :
  (forall url, url ∈ urls -> succeeded requests_get url = true ->
               destination output_path url <> p) ->
  disk (snd (download_urls requests_get open_error urls verbose output_path w)) !! p
  = disk w !! p.
Proof. intros Hp. by apply download_loop_frame. Qed.

(** X10. The downloader never removes a file: a path that holds a file
    before the run holds one after it. *)
Theorem download_removes_nothing urls verbose output_path p w :
  is_Some (disk w !! p) ->
  is_Some (disk (snd (download_urls requests_get open_error urls verbose
                                    output_path w)) !! p).
Proof. apply download_loop_keeps. Qed.

(** X11. With a verbose flag other than 1 the downloader prints nothing,
    whatever the fetches do. *)
Theorem download_silent_unless_verbose urls verbose output_path w :
  verbose <> 1%Z ->
  stdout (snd (download_urls requests_get open_error urls verbose output_path w))
  = stdout w.
Proof. intros Hv. by apply download_loop_silent. Qed.

(** X12. With the verbose flag 1, fetches that all return and files that
    can all be stored, the downloader appends to the output exactly two
    lines per URL, in URL order: the line naming the URL, then the line
    saying whether its download was done or failed. *)
Theorem download_verbose_two_lines_per_url urls output_path w :
  Forall (responded requests_get) urls ->
  Forall (storable requests_get open_error output_path) urls ->
  stdout (snd (download_urls requests_get open_error urls 1 output_path w))
  = (stdout w
     ++ flat_map (fun url =>
          [ ("[INFO] Downloading file from: " ++ url)%string;
            if succeeded requests_get url
            then ("[INFO] Download done for file: " ++ url_filename url)%string
            else ("[INFO] Download failed for file: " ++ url)%string ]) urls)%list
  /\ length (stdout (snd (download_urls requests_get open_error urls 1
                                        output_path w)))
     = length (stdout w) + 2 * length urls.
Proof.
  intros Hurls Hstore. unfold download_urls.
  rewrite download_loop_responded by done. simpl. split; [done|].
  rewrite length_app. f_equal. clear Hurls Hstore.
  induction urls as [|url rest IH]; [done|].
  simpl. rewrite IH. lia.
Qed.

(** X13. When the fetches all return and the files can all be stored,
    the file at the destination of a URL answered with status 200 holds
    the payload of that URL, unless a later URL answered with status 200
    has the same destination: of two URLs with the same file name, the
    later one overwrites the earlier. *)
Theorem download_last_writer_wins pre url post verbose output_path w :
  Forall (responded requests_get) (pre ++ url :: post) ->
  Forall (storable requests_get open_error output_path) (pre ++ url :: post) ->
  succeeded requests_get url = true ->
  (forall v, v ∈ post -> succeeded requests_get v = true ->
             destination output_path v <> destination output_path url) ->
  disk (snd (download_urls requests_get open_error (pre ++ url :: post)%list
                           verbose output_path w))
    !! destination output_path url
  = Some (payload requests_get url).
Proof.
  intros Hresp Hstore Hok Hpost. unfold download_urls.
  rewrite download_loop_responded by done. simpl.
  rewrite List.filter_app. simpl. rewrite Hok.
  rewrite store_all_app.
  change (store_all requests_get output_path (url :: ?l) ?d)
    with (store_all requests_get output_path l
            (<[destination output_path url := payload requests_get url]> d)).
  rewrite store_all_frame; [apply lookup_insert_eq|].
  intros v Hv. apply list_elem_of_In, List.filter_In in Hv as [Hin Hsucc].
  apply Hpost; [by apply list_elem_of_In | done].
Qed.

End DownloaderMoreFacts.

Lemma download_changes_destinations_only_witness :
  let w := World (<["out/notes.txt" := "keep"]> ∅) [] in
  (forall url, url ∈ [Scenario.url_a; Scenario.url_b] ->
               succeeded Scenario.network url = true ->
               destination "out" url <> "out/notes.txt")
  /\ disk (snd (download_urls Scenario.network Scenario.open_error
                              [Scenario.url_a; Scenario.url_b]
                              1 "out" w)) !! "out/notes.txt"
     = Some "keep".
Proof.
  intros w.
  assert (forall url, url ∈ [Scenario.url_a; Scenario.url_b] ->
                      succeeded Scenario.network url = true ->
                      destination "out" url <> "out/notes.txt") as Hp.
  { intros url Hin Hok.
    apply elem_of_cons in Hin as [->|Hin]; [discriminate|].
    apply elem_of_cons in Hin as [->|Hin]; [discriminate|].
    by apply elem_of_nil in Hin. }
  split; [exact Hp|].
  rewrite (download_changes_destinations_only Scenario.network Scenario.open_error
             [Scenario.url_a; Scenario.url_b] 1 "out" "out/notes.txt" w Hp).
  reflexivity.
Defined.

Lemma download_removes_nothing_witness :
  let w := World (<["out/notes.txt" := "keep"]> ∅) [] in
  is_Some (disk w !! "out/notes.txt")
  /\ is_Some (disk (snd (download_urls Scenario.network Scenario.open_error
                           [Scenario.url_a; Scenario.url_c] 1 "out" w))
                !! "out/notes.txt").
Proof.
  intros w.
  assert (is_Some (disk w !! "out/notes.txt")) as Hp by (by eexists).
  split; [exact Hp|].
  exact (download_removes_nothing Scenario.network Scenario.open_error
           [Scenario.url_a; Scenario.url_c] 1 "out" "out/notes.txt" w Hp).
Defined.

Lemma download_silent_unless_verbose_witness :
  0%Z <> 1%Z
  /\ stdout (snd (download_urls Scenario.network Scenario.open_error
                    [Scenario.url_a; Scenario.url_b; Scenario.url_c] 0 "out"
                    Scenario.empty_world)) = [].
Proof.
  assert (0%Z <> 1%Z) as Hv by discriminate.
  split; [exact Hv|].
  exact (download_silent_unless_verbose Scenario.network Scenario.open_error
           [Scenario.url_a; Scenario.url_b; Scenario.url_c] 0 "out"
           Scenario.empty_world Hv).
Defined.

Lemma download_verbose_two_lines_per_url_witness :
  let urls := [Scenario.url_a; Scenario.url_b] in
  Forall (responded Scenario.network) urls
  /\ Forall (storable Scenario.network Scenario.open_error "out") urls
  /\ length (stdout (snd (download_urls Scenario.network Scenario.open_error urls
                            1 "out" Scenario.empty_world))) = 4.
Proof.
  intros urls.
  assert (Forall (responded Scenario.network) urls) as Hurls.
  { repeat constructor; eexists; reflexivity. }
  assert (Forall (storable Scenario.network Scenario.open_error "out") urls) as Hstore.
  { apply scenario_storable. repeat constructor; discriminate. }
  split; [exact Hurls|]. split; [exact Hstore|].
  exact (proj2 (download_verbose_two_lines_per_url Scenario.network
                  Scenario.open_error urls "out" Scenario.empty_world Hurls Hstore)).
Defined.

(** Tile [a] and its mirror have the same destination; the mirror comes
    later and its contents are the ones on disk. *)
Lemma download_last_writer_wins_witness :
  let urls := ([Scenario.url_a] ++ Scenario.url_a_mirror :: [])%list in
  Forall (responded Scenario.mirrored_network) urls
  /\ Forall (storable Scenario.mirrored_network Scenario.open_error "out") urls
  /\ succeeded Scenario.mirrored_network Scenario.url_a = true
  /\ succeeded Scenario.mirrored_network Scenario.url_a_mirror = true
  /\ destination "out" Scenario.url_a = destination "out" Scenario.url_a_mirror
  /\ payload Scenario.mirrored_network Scenario.url_a = "points of a"
  /\ disk (snd (download_urls Scenario.mirrored_network Scenario.open_error urls
                              1 "out" Scenario.empty_world)) !! "out/a.copc.laz"
     = Some "points of a, mirror".
Proof.
  intros urls.
  assert (Forall (responded Scenario.mirrored_network) urls) as Hresp.
  { repeat constructor; eexists; reflexivity. }
  assert (Forall (storable Scenario.mirrored_network Scenario.open_error "out") urls)
    as Hstore.
  { apply scenario_storable. repeat constructor; discriminate. }
  split; [exact Hresp|]. split; [exact Hstore|].
  repeat (split; [reflexivity|]).
  apply (download_last_writer_wins Scenario.mirrored_network Scenario.open_error
           [Scenario.url_a] Scenario.url_a_mirror [] 1 "out" Scenario.empty_world
           Hresp Hstore eq_refl).
  intros v Hv. by apply elem_of_nil in Hv.
Defined.

(** ** More on the executor and the orchestrator *)

Section ExecutorMoreFacts.

Context {float : Type}.
Variable json_dumps : pipeline_config float -> string.
Variable mkstemp_name : gmap string string -> string.
Variable subprocess_run :
  list string -> gmap string string -> outcome unit * gmap string string.
Implicit Types (input_las output_directory file : string) (classes : classes_arg)
               (resolution : float) (w : world) (args : Args float).

(** [point_cloud_to_tif] in terms of what the engine did. *)
Lemma point_cloud_to_tif_unfold input_las output_directory classes resolution w :
  let cfg := Config (build_pipeline input_las output_directory classes resolution) in
  let temp_file_path := mkstemp_name (disk w) in
  point_cloud_to_tif json_dumps mkstemp_name subprocess_run
                     input_las output_directory classes resolution w
  = let '(r, d2) := subprocess_run ["pdal"; "pipeline"; temp_file_path]
                                   (<[temp_file_path := json_dumps cfg]> (disk w)) in
    let '(r2, w2) :=
      match r with
      | Returns a => (Returns a, World d2 (stdout w))
      | Raises e =>
          if is_CalledProcessError e
          then (Returns tt,
                World d2 (stdout w ++ ["Error running PDAL pipeline: " ++ exn_str e]))
          else (Raises e, World d2 (stdout w))
      end in
    match os_remove temp_file_path w2 with
    | (Returns _, w3) => (r2, w3)
    | (Raises e', w3) => (Raises e', w3)
    end.
Proof.
  intros cfg temp_file_path.
  unfold point_cloud_to_tif, bind, dump_to_temp_file, execute,
    try_except_finally, run; simpl.
  fold temp_file_path. fold cfg.
  destruct (subprocess_run _ _) as [[u|e] d2]; [done|].
  by destruct (is_CalledProcessError e).
Qed.

(** X14. When the engine returns and has left the description in place,
    [point_cloud_to_tif] returns without printing anything, and the disk
    is the one the engine left, less the temporary file. *)
Theorem point_cloud_to_tif_success input_las output_directory classes resolution w d2 :
  let cfg := Config (build_pipeline input_las output_directory classes resolution) in
  let temp_file_path := mkstemp_name (disk w) in
  subprocess_run ["pdal"; "pipeline"; temp_file_path]
                 (<[temp_file_path := json_dumps cfg]> (disk w)) = (Returns tt, d2) ->
  is_Some (d2 !! temp_file_path) ->
  point_cloud_to_tif json_dumps mkstemp_name subprocess_run
                     input_las output_directory classes resolution w
  = (Returns tt, World (delete temp_file_path d2) (stdout w)).
Proof.
  intros cfg temp_file_path Hrun Hkept.
  rewrite point_cloud_to_tif_unfold. fold cfg temp_file_path. rewrite Hrun.
  by rewrite os_remove_present.
Qed.

(** X15. When the engine run has removed the description itself, the
    [os.remove] of the [finally] clause raises [FileNotFoundError], and
    that exception leaves [point_cloud_to_tif] whatever the engine's own
    outcome was: a successful run ends in an exception, and after a
    non-zero exit the diagnostic is printed and the exception raised all
    the same. *)
Theorem cleanup_failure_escapes input_las output_directory classes resolution w r d2 :
  let cfg := Config (build_pipeline input_las output_directory classes resolution) in
  let temp_file_path := mkstemp_name (disk w) in
  subprocess_run ["pdal"; "pipeline"; temp_file_path]
                 (<[temp_file_path := json_dumps cfg]> (disk w)) = (r, d2) ->
  d2 !! temp_file_path = None ->
  point_cloud_to_tif json_dumps mkstemp_name subprocess_run
                     input_las output_directory classes resolution w
  = (Raises (Exn FileNotFoundError
               ("[Errno 2] No such file or directory: '" ++ temp_file_path ++ "'")),
     World d2
           (stdout w
            ++ match r with
               | Raises e =>
                   if is_CalledProcessError e
                   then ["Error running PDAL pipeline: " ++ exn_str e]%string
                   else []
               | Returns _ => []
               end)%list).
Proof.
  intros cfg temp_file_path Hrun Hgone.
  rewrite point_cloud_to_tif_unfold. fold cfg temp_file_path. rewrite Hrun.
  unfold os_remove.
  destruct r as [u|e]; [|destruct (is_CalledProcessError e)]; simpl;
    rewrite Hgone, ?app_nil_r; done.
Qed.

(** X16. With a temporary name that is not in use and an engine run that
    leaves the disk as it found it, [point_cloud_to_tif] leaves the disk
    exactly as it was before the call, whatever the outcome of the run. *)
Theorem point_cloud_to_tif_restores_disk
    input_las output_directory classes resolution w r :
  let cfg := Config (build_pipeline input_las output_directory classes resolution) in
  let temp_file_path := mkstemp_name (disk w) in
  disk w !! temp_file_path = None ->
  subprocess_run ["pdal"; "pipeline"; temp_file_path]
                 (<[temp_file_path := json_dumps cfg]> (disk w))
  = (r, <[temp_file_path := json_dumps cfg]> (disk w)) ->
  disk (snd (point_cloud_to_tif json_dumps mkstemp_name subprocess_run
               input_las output_directory classes resolution w))
  = disk w.
Proof.
  intros cfg temp_file_path Hfresh Hrun.
  rewrite point_cloud_to_tif_unfold. fold cfg temp_file_path. rewrite Hrun.
  assert (forall out, os_remove temp_file_path
            (World (<[temp_file_path := json_dumps cfg]> (disk w)) out)
          = (Returns tt, World (disk w) out)) as Hrm.
  { intros out. rewrite os_remove_present by (simpl; rewrite lookup_insert_eq; eauto).
    simpl. by rewrite delete_insert_id. }
  destruct r as [u|e]; [|destruct (is_CalledProcessError e)]; by rewrite Hrm.
Qed.

End ExecutorMoreFacts.

Lemma point_cloud_to_tif_success_witness :
  let d1 : gmap string string :=
    <["/tmp/tmpk3x9.json" :=
        Scenario.dumps
          (Config (build_pipeline "out/a.copc.laz" "out" (ClassesStr "ALL") (1 # 2)%Q))]> ∅ in
  is_Some (d1 !! "/tmp/tmpk3x9.json")
  /\ point_cloud_to_tif Scenario.dumps Scenario.temp_name Scenario.pdal_ok
       "out/a.copc.laz" "out" (ClassesStr "ALL") (1 # 2)%Q Scenario.empty_world
     = (Returns tt, World (delete "/tmp/tmpk3x9.json" d1) []).
Proof.
  intros d1.
  assert (is_Some (d1 !! "/tmp/tmpk3x9.json")) as Hkept.
  { subst d1. rewrite lookup_insert_eq. eauto. }
  split; [exact Hkept|].
  exact (point_cloud_to_tif_success Scenario.dumps Scenario.temp_name Scenario.pdal_ok
           "out/a.copc.laz" "out" (ClassesStr "ALL") (1 # 2)%Q Scenario.empty_world
           d1 eq_refl Hkept).
Defined.

Lemma cleanup_failure_escapes_witness :
  let d1 : gmap string string :=
    <["/tmp/tmpk3x9.json" :=
        Scenario.dumps
          (Config (build_pipeline "out/a.copc.laz" "out" (ClassesStr "ALL") (1 # 2)%Q))]> ∅ in
  delete "/tmp/tmpk3x9.json" d1 !! "/tmp/tmpk3x9.json" = None
  /\ fst (point_cloud_to_tif Scenario.dumps Scenario.temp_name pdal_tidy
            "out/a.copc.laz" "out" (ClassesStr "ALL") (1 # 2)%Q Scenario.empty_world)
     = Raises (Exn FileNotFoundError
                 "[Errno 2] No such file or directory: '/tmp/tmpk3x9.json'").
Proof.
  intros d1.
  assert (delete "/tmp/tmpk3x9.json" d1 !! "/tmp/tmpk3x9.json" = None) as Hgone
    by apply lookup_delete_eq.
  split; [exact Hgone|].
  rewrite (cleanup_failure_escapes Scenario.dumps Scenario.temp_name pdal_tidy
             "out/a.copc.laz" "out" (ClassesStr "ALL") (1 # 2)%Q Scenario.empty_world
             (Returns tt) (delete "/tmp/tmpk3x9.json" d1) eq_refl Hgone).
  reflexivity.
Defined.

Lemma point_cloud_to_tif_restores_disk_witness :
  disk Scenario.empty_world !! "/tmp/tmpk3x9.json" = None
  /\ disk (snd (point_cloud_to_tif Scenario.dumps Scenario.temp_name
                  Scenario.pdal_exit_1 "out/a.copc.laz" "out" (ClassesStr "ALL")
                  (1 # 2)%Q Scenario.empty_world))
     = ∅.
Proof.
  split; [reflexivity|].
  exact (point_cloud_to_tif_restores_disk Scenario.dumps Scenario.temp_name
           Scenario.pdal_exit_1 "out/a.copc.laz" "out" (ClassesStr "ALL") (1 # 2)%Q
           Scenario.empty_world (Raises Scenario.exit_1) eq_refl eq_refl).
Defined.

Section OrchestratorFacts.

Context {float geometry : Type}.
Variable json_dumps : pipeline_config float -> string.
Variable mkstemp_name : gmap string string -> string.
Variable subprocess_run :
  list string -> gmap string string -> outcome unit * gmap string string.
Variable intersects : geometry -> geometry -> bool.
Variable join_rank :
  list geometry -> list (TileRecord geometry) -> geometry * TileRecord geometry -> nat.
Variable requests_get : string -> outcome response.
Variable open_error : string -> gmap string string -> option exn.
Implicit Types (args : Args float) (classes : classes_arg) (w : world)
               (mosaics : list (TileRecord geometry)) (user_shp : list geometry).

Lemma point_cloud_to_tif_returns input_las output_directory classes resolution w :
  keeps_description subprocess_run ->
  fails_by_exit_status_only subprocess_run ->
  exists w', point_cloud_to_tif json_dumps mkstemp_name subprocess_run
               input_las output_directory classes resolution w
             = (Returns tt, w').
Proof.
  intros Hkeep Hexit. rewrite point_cloud_to_tif_unfold.
  set (temp_file_path := mkstemp_name (disk w)).
  set (d1 := <[temp_file_path := _]> (disk w)).
  pose proof (Hkeep temp_file_path d1) as Hkept.
  pose proof (Hexit ["pdal"; "pipeline"; temp_file_path] d1) as Hcls.
  destruct (subprocess_run _ d1) as [[[]|e] d2]; simpl in Hkept.
  - rewrite os_remove_present by (apply Hkept; subst d1; rewrite lookup_insert_eq; eauto).
    eauto.
  - rewrite (Hcls e d2 eq_refl).
    rewrite os_remove_present by (apply Hkept; subst d1; rewrite lookup_insert_eq; eauto).
    eauto.
Qed.

Lemma rasterize_all_returns args classes files :
  keeps_description subprocess_run ->
  fails_by_exit_status_only subprocess_run ->
  forall w, exists w',
    rasterize_all json_dumps mkstemp_name subprocess_run args classes files w
    = (Returns tt, w').
Proof.
  intros Hkeep Hexit. unfold rasterize_all.
  induction files as [|file rest IH]; intros w; simpl; [by eexists|].
  unfold bind at 1.
  destruct (point_cloud_to_tif_returns (os_path.join (output args) file)
              (output args) classes (res args) w Hkeep Hexit) as [w1 ->].
  apply IH.
Qed.

(** X17. With an engine that leaves its description in place and whose
    invocation can only fail by a non-zero exit status, the rasterization
    loop of [main] returns for every list of files: no failure of one
    file ends the loop. *)
Theorem rasterize_all_never_raises args classes files w :
  keeps_description subprocess_run ->
  fails_by_exit_status_only subprocess_run ->
  exists w',
    rasterize_all json_dumps mkstemp_name subprocess_run args classes files w
    = (Returns tt, w').
Proof. intros Hkeep Hexit. by apply rasterize_all_returns. Qed.

Lemma main_unfold mosaics args user_shp w :
  main json_dumps mkstemp_name subprocess_run intersects join_rank
       requests_get open_error mosaics args user_shp w
  = match download_urls requests_get open_error
            (matched_urls intersects join_rank user_shp mosaics)
            (verbose args) (output args)
            (World (disk w) (stdout w ++ ["[INFO] Downloading LidarHD data..."])) with
    | (Raises e, w1) => (Raises e, w1)
    | (Returns lidar_data, w1) =>
        let w2 := World (disk w1)
                        (stdout w1 ++ ["[INFO] LidarHD data successfully downloaded."]) in
        if (to_dtm args =? 0)%Z then (Returns tt, w2)
        else
          match rasterize_all json_dumps mkstemp_name subprocess_run args
                  (select_classes (classes args)) lidar_data w2 with
          | (Raises e, w3) => (Raises e, w3)
          | (Returns _, w3) =>
              (Returns tt,
               World (disk w3)
                     (stdout w3 ++ ["[INFO] Lidar data successfully rasterized."]))
          end
    end.
Proof.
  unfold main, download_lidar_data, bind, print; simpl.
  destruct (download_urls _ _ _ _ _) as [[lidar_data|e] w1]; [|done].
  destruct (to_dtm args =? 0)%Z; [done|].
  by destruct (rasterize_all _ _ _ _ _ _ _) as [[[]|e] w3].
Qed.


(** X18. When rasterization is not asked for, the fetches of the matched
    URLs all return and their files can all be stored, [main] returns;
    the disk is the initial one with the payloads of the URLs answered
    with status 200 stored, and the output is the opening line, the
    download reports in the order of the matched URLs and the closing
    line of the download.  The engine plays no part. *)
Theorem main_download_only mosaics args user_shp w :
  let urls := matched_urls intersects join_rank user_shp mosaics in
  to_dtm args = 0%Z ->
  Forall (responded requests_get) urls ->
  Forall (storable requests_get open_error (output args)) urls ->
  main json_dumps mkstemp_name subprocess_run intersects join_rank
       requests_get open_error mosaics args user_shp w
  = (Returns tt,
     World (store_all requests_get (output args)
                      (List.filter (succeeded requests_get) urls) (disk w))
           (stdout w
            ++ ["[INFO] Downloading LidarHD data..."]
            ++ download_log requests_get (verbose args) urls
            ++ ["[INFO] LidarHD data successfully downloaded."])%list).
Proof.
  intros urls Hdtm Hurls Hstore. rewrite main_unfold. fold urls.
  unfold download_urls. rewrite download_loop_responded by done.
  rewrite Hdtm. simpl. by rewrite <- !app_assoc.
Qed.

(** X19. When the fetches of the matched URLs all return, their files
    can all be stored, and the engine leaves its description in place and
    can only fail by a non-zero exit status, [main] returns, and the last
    line it prints is the closing line of the stage it ended with. *)
Theorem main_never_raises mosaics args user_shp w :
  Forall (responded requests_get)
         (matched_urls intersects join_rank user_shp mosaics) ->
  Forall (storable requests_get open_error (output args))
         (matched_urls intersects join_rank user_shp mosaics) ->
  keeps_description subprocess_run ->
  fails_by_exit_status_only subprocess_run ->
  exists w',
    main json_dumps mkstemp_name subprocess_run intersects join_rank
         requests_get open_error mosaics args user_shp w
    = (Returns tt, w')
    /\ last (stdout w')
       = Some (if (to_dtm args =? 0)%Z
               then "[INFO] LidarHD data successfully downloaded."
               else "[INFO] Lidar data successfully rasterized.").
Proof.
  intros Hurls Hstore Hkeep Hexit. rewrite main_unfold.
  unfold download_urls. rewrite download_loop_responded by done.
  destruct (to_dtm args =? 0)%Z.
  - eexists. split; [done|]. simpl. apply last_snoc.
  - match goal with
    | |- context [rasterize_all ?a ?b ?c ?d ?e ?f ?g] =>
        destruct (rasterize_all_returns d e f Hkeep Hexit g) as [w3 ->]
    end.
    eexists. split; [done|]. simpl. apply last_snoc.
Qed.

(** X20. When the fetch of a matched URL raises, the fetches of the
    matched URLs before it having returned and their files being
    storable, the exception leaves [main]: the closing line of the
    download is not printed and no file is rasterized, not even those
    already downloaded, which stay on disk. *)
Theorem main_download_error_escapes mosaics args user_shp pre url post e w :
  matched_urls intersects join_rank user_shp mosaics = (pre ++ url :: post)%list ->
  Forall (responded requests_get) pre ->
  Forall (storable requests_get open_error (output args)) pre ->
  requests_get url = Raises e ->
  main json_dumps mkstemp_name subprocess_run intersects join_rank
       requests_get open_error mosaics args user_shp w
  = (Raises e,
     World (store_all requests_get (output args)
                      (List.filter (succeeded requests_get) pre) (disk w))
           (stdout w
            ++ ["[INFO] Downloading LidarHD data..."]
            ++ download_log requests_get (verbose args) pre)%list).
Proof.
  intros Hurls Hpre Hstore Hurl. rewrite main_unfold, Hurls.
  unfold download_urls. rewrite (download_loop_raises _ _ _ _ _ _ _ e) by done.
  rewrite download_loop_responded by done. simpl. by rewrite <- !app_assoc.
Qed.

End OrchestratorFacts.

Lemma pdal_exit_1_keeps_description : keeps_description Scenario.pdal_exit_1.
Proof. intros p d Hp. exact Hp. Qed.

Lemma pdal_exit_1_fails_by_exit_status_only :
  fails_by_exit_status_only Scenario.pdal_exit_1.
Proof. intros command d e d' [= <- _]. reflexivity. Qed.

Lemma scenario_matched_urls :
  matched_urls Scenario.overlap Scenario.catalogue_order Scenario.region
               Scenario.catalogue
  = [Scenario.url_a; Scenario.url_b].
Proof. vm_compute. reflexivity. Qed.

(** With the rows of tile [b] ranked first, the wider region gives the
    tiles in the order [b], [a], [c]. *)
Lemma scenario_matched_urls_wide :
  matched_urls Scenario.overlap Scenario.b_first wide_region Scenario.catalogue
  = [Scenario.url_b; Scenario.url_a; Scenario.url_c].
Proof. vm_compute. reflexivity. Qed.

Lemma scenario_responded :
  Forall (responded Scenario.network)
         (matched_urls Scenario.overlap Scenario.catalogue_order Scenario.region
                       Scenario.catalogue).
Proof.
  rewrite scenario_matched_urls. repeat constructor; eexists; reflexivity.
Qed.

Lemma scenario_matched_storable :
  Forall (storable Scenario.network Scenario.open_error "out")
         (matched_urls Scenario.overlap Scenario.catalogue_order Scenario.region
                       Scenario.catalogue).
Proof.
  rewrite scenario_matched_urls. apply scenario_storable.
  repeat constructor; discriminate.
Qed.


Lemma rasterize_all_never_raises_witness :
  keeps_description Scenario.pdal_exit_1
  /\ fails_by_exit_status_only Scenario.pdal_exit_1
  /\ exists w',
       rasterize_all Scenario.dumps Scenario.temp_name Scenario.pdal_exit_1
                     Scenario.args (ClassesStr "ALL") ["a.copc.laz"; "b.copc.laz"]
                     Scenario.empty_world
       = (Returns tt, w').
Proof.
  split; [exact pdal_exit_1_keeps_description|].
  split; [exact pdal_exit_1_fails_by_exit_status_only|].
  exact (rasterize_all_never_raises Scenario.dumps Scenario.temp_name
           Scenario.pdal_exit_1 Scenario.args (ClassesStr "ALL")
           ["a.copc.laz"; "b.copc.laz"] Scenario.empty_world
           pdal_exit_1_keeps_description pdal_exit_1_fails_by_exit_status_only).
Defined.

Lemma main_download_only_witness :
  to_dtm args_download_only = 0%Z
  /\ Forall (responded Scenario.network)
            (matched_urls Scenario.overlap Scenario.catalogue_order Scenario.region
                          Scenario.catalogue)
  /\ Forall (storable Scenario.network Scenario.open_error (output args_download_only))
            (matched_urls Scenario.overlap Scenario.catalogue_order Scenario.region
                          Scenario.catalogue)
  /\ fst (main Scenario.dumps Scenario.temp_name Scenario.pdal_missing
            Scenario.overlap Scenario.catalogue_order Scenario.network
            Scenario.open_error Scenario.catalogue
            args_download_only Scenario.region Scenario.empty_world)
     = Returns tt.
Proof.
  split; [reflexivity|]. split; [exact scenario_responded|].
  split; [exact scenario_matched_storable|].
  rewrite (main_download_only Scenario.dumps Scenario.temp_name Scenario.pdal_missing
             Scenario.overlap Scenario.catalogue_order Scenario.network
             Scenario.open_error Scenario.catalogue
             args_download_only Scenario.region Scenario.empty_world
             eq_refl scenario_responded scenario_matched_storable).
  reflexivity.
Defined.

Lemma main_never_raises_witness :
  Forall (responded Scenario.network)
         (matched_urls Scenario.overlap Scenario.catalogue_order Scenario.region
                       Scenario.catalogue)
  /\ Forall (storable Scenario.network Scenario.open_error (output Scenario.args))
            (matched_urls Scenario.overlap Scenario.catalogue_order Scenario.region
                          Scenario.catalogue)
  /\ keeps_description Scenario.pdal_exit_1
  /\ fails_by_exit_status_only Scenario.pdal_exit_1
  /\ exists w',
       main Scenario.dumps Scenario.temp_name Scenario.pdal_exit_1
            Scenario.overlap Scenario.catalogue_order Scenario.network
            Scenario.open_error Scenario.catalogue
            Scenario.args Scenario.region Scenario.empty_world
       = (Returns tt, w')
       /\ last (stdout w') = Some "[INFO] Lidar data successfully rasterized.".
Proof.
  split; [exact scenario_responded|].
  split; [exact scenario_matched_storable|].
  split; [exact pdal_exit_1_keeps_description|].
  split; [exact pdal_exit_1_fails_by_exit_status_only|].
  exact (main_never_raises Scenario.dumps Scenario.temp_name Scenario.pdal_exit_1
           Scenario.overlap Scenario.catalogue_order Scenario.network
           Scenario.open_error Scenario.catalogue
           Scenario.args Scenario.region Scenario.empty_world
           scenario_responded scenario_matched_storable
           pdal_exit_1_keeps_description pdal_exit_1_fails_by_exit_status_only).
Defined.

Lemma main_download_error_escapes_witness :
  matched_urls Scenario.overlap Scenario.b_first wide_region Scenario.catalogue
  = ([Scenario.url_b; Scenario.url_a] ++ Scenario.url_c :: [])%list
  /\ Forall (responded Scenario.network) [Scenario.url_b; Scenario.url_a]
  /\ Forall (storable Scenario.network Scenario.open_error (output Scenario.args))
            [Scenario.url_b; Scenario.url_a]
  /\ Scenario.network Scenario.url_c = Raises Scenario.unreachable
  /\ fst (main Scenario.dumps Scenario.temp_name Scenario.pdal_ok
            Scenario.overlap Scenario.b_first Scenario.network
            Scenario.open_error Scenario.catalogue
            Scenario.args wide_region Scenario.empty_world)
     = Raises Scenario.unreachable.
Proof.
  assert (Forall (responded Scenario.network) [Scenario.url_b; Scenario.url_a])
    as Hpre by (repeat constructor; eexists; reflexivity).
  assert (Forall (storable Scenario.network Scenario.open_error (output Scenario.args))
                 [Scenario.url_b; Scenario.url_a]) as Hstore.
  { apply scenario_storable. repeat constructor; discriminate. }
  split; [exact scenario_matched_urls_wide|]. split; [exact Hpre|].
  split; [exact Hstore|]. split; [reflexivity|].
  rewrite (main_download_error_escapes Scenario.dumps Scenario.temp_name
             Scenario.pdal_ok Scenario.overlap Scenario.b_first Scenario.network
             Scenario.open_error Scenario.catalogue Scenario.args
             wide_region [Scenario.url_b; Scenario.url_a] Scenario.url_c []
             Scenario.unreachable Scenario.empty_world
             scenario_matched_urls_wide Hpre Hstore eq_refl).
  reflexivity.
Defined.

(** ** More on the matcher *)

Section MatcherMoreFacts.

Context {geometry : Type}.
Variable intersects : geometry -> geometry -> bool.
Variable join_rank :
  list geometry -> list (TileRecord geometry) -> geometry * TileRecord geometry -> nat.
Implicit Types (seen : gset string) (l : list string)
               (R : list geometry) (C : list (TileRecord geometry)).

Lemma elem_of_matched_urls R C u :
  u ∈ matched_urls intersects join_rank R C
  <-> exists g t, g ∈ R /\ t ∈ C /\ intersects g (tile_geometry t) = true
                  /\ url_telech t = u.
Proof.
  unfold matched_urls, unique. rewrite elem_of_unique_from.
  rewrite list_elem_of_In, in_map_iff. split.
  - intros [([g t] & Hu & Hin) _]. simpl in Hu.
    apply list_elem_of_In, elem_of_sjoin in Hin. exists g, t. tauto.
  - intros (g & t & Hg & Ht & Hi & Hu). split; [|apply not_elem_of_empty].
    exists (g, t). split; [done|].
    apply list_elem_of_In, elem_of_sjoin. tauto.
Qed.

(** X21. A larger region or a larger catalogue never loses a URL: every
    URL matched for a region and a catalogue is matched for any region and
    catalogue that contain them. *)
Theorem matched_urls_monotone R R' C C' :
  R ⊆ R' -> C ⊆ C' ->
  matched_urls intersects join_rank R C ⊆ matched_urls intersects join_rank R' C'.
Proof.
  intros HR HC u. rewrite !elem_of_matched_urls.
  intros (g & t & Hg & Ht & Hi & Hu). exists g, t. auto.
Qed.

Lemma filter_all_pass (P : string -> Prop) `{forall y, Decision (P y)} l :
  (forall y, y ∈ l -> P y) -> filter P l = l.
Proof.
  induction l as [|y l IH]; intros Hall; [done|].
  rewrite filter_cons_True by (apply Hall; by left).
  f_equal. apply IH. intros z Hz. apply Hall. by right.
Qed.

(** Marking [x] as seen beforehand strikes [x] out of the result and
    changes nothing else. *)
Lemma unique_from_seen_before x seen l :
  x ∉ seen ->
  unique_from ({[x]} ∪ seen) l = filter (fun y => y <> x) (unique_from seen l).
Proof.
  revert seen. induction l as [|y l IH]; intros seen Hx; simpl; [done|].
  destruct (decide (y ∈ seen)) as [Hy|Hy].
  - rewrite decide_True by (apply elem_of_union; by right). by apply IH.
  - destruct (decide (y = x)) as [->|Hne].
    + rewrite decide_True by (apply elem_of_union; left; by apply elem_of_singleton).
      rewrite filter_cons_False by (intros Hxx; by apply Hxx).
      symmetry. apply filter_all_pass.
      intros z [_ Hz]%elem_of_unique_from Hzx. subst z.
      apply Hz, elem_of_union. left. by apply elem_of_singleton.
    + rewrite decide_False.
      2:{ rewrite elem_of_union, elem_of_singleton. intros [?|?]; [done | done]. }
      rewrite filter_cons_True by done. f_equal.
      rewrite <- IH.
      2:{ rewrite elem_of_union, elem_of_singleton. intros [?|?]; [by subst | done]. }
      f_equal. rewrite !(assoc_L (∪)). f_equal. apply (comm_L (∪)).
Qed.

(** X22. Deduplication keeps every URL at its first occurrence: the first
    URL of a column stays first, and the rest of the result is the
    deduplicated rest of the column with that URL struck out. *)
Theorem unique_keeps_first_occurrence x l :
  unique [] = []
  /\ unique (x :: l) = x :: filter (fun y => y <> x) (unique l).
Proof.
  split; [done|]. unfold unique. simpl.
  rewrite decide_False by apply not_elem_of_empty.
  f_equal. apply unique_from_seen_before, not_elem_of_empty.
Qed.

End MatcherMoreFacts.

Lemma matched_urls_monotone_witness :
  Scenario.region ⊆ wide_region
  /\ Scenario.catalogue ⊆ Scenario.catalogue
  /\ matched_urls Scenario.overlap Scenario.catalogue_order Scenario.region
                  Scenario.catalogue
     ⊆ matched_urls Scenario.overlap Scenario.catalogue_order wide_region
                    Scenario.catalogue.
Proof.
  assert (Scenario.region ⊆ wide_region) as HR.
  { intros g Hg. apply elem_of_cons in Hg as [->|Hg]; [by left|].
    by apply elem_of_nil in Hg. }
  assert (Scenario.catalogue ⊆ Scenario.catalogue) as HC by done.
  split; [exact HR|]. split; [exact HC|].
  exact (matched_urls_monotone Scenario.overlap Scenario.catalogue_order
           Scenario.region wide_region
           Scenario.catalogue Scenario.catalogue HR HC).
Defined.
